(** * meas_algorithms: naive centroid, Shape accessors, PSF convolution and
    factories

    A shallow embedding of
    - [src/trunk/src/centroid/NaiveCentroid.cc]  ([NaiveMeasureCentroid::doApply]),
    - [src/trunk/include/lsst/meas/algorithms/PSF.h]  ([PSF], [PsfFactoryBase],
      [PsfFactory]),
    - [src/include/lsst/meas/algorithms/Shape.h]  ([Shape]),
    followed by the properties proved about them.

    C++ [int] is a 32-bit two's-complement integer: a [Z] that every
    operation wraps.  C++ [double] and [float] are IEEE 754 binary64 and
    binary32 numbers: [spec_float] with the operations of the Standard
    Library's [SpecFloat] at precision 53 and 24.  A thrown exception is the
    left summand of a sum type. *)

From Stdlib Require Import ZArith Bool Lia.
From Stdlib Require Import Floats.SpecFloat.
From stdpp Require Import base option gmap strings vector pretty.

Local Open Scope Z_scope.

(* ===================================================================== *)
(** * Machine numbers *)
(* ===================================================================== *)

(** ** [int]: 32 bits, two's complement *)

Definition in_int (z : Z) : Prop := - 2 ^ 31 <= z < 2 ^ 31.

(** Reduction of a mathematical integer to the [int] that represents it. *)
Definition wrap (z : Z) : Z := (z + 2 ^ 31) mod 2 ^ 32 - 2 ^ 31.

Definition int_add (a b : Z) : Z := wrap (a + b).
Definition int_sub (a b : Z) : Z := wrap (a - b).
Definition int_neg (a : Z) : Z := wrap (- a).

(** ** [double]: binary64 *)

Definition double : Type := spec_float.

Definition dadd : double -> double -> double := SFadd 53 1024.
Definition dsub : double -> double -> double := SFsub 53 1024.
Definition dmul : double -> double -> double := SFmul 53 1024.
Definition ddiv : double -> double -> double := SFdiv 53 1024.

(** The C++ [==] on doubles: false as soon as one side is a NaN, true on
    two zeros of either sign. *)
Definition deqb : double -> double -> bool := SFeqb.

Definition NAN : double := S754_nan.
Definition dzero : double := S754_zero false.

(** Conversion [int -> double]; exact, an [int] has at most 32 significant
    bits. *)
Definition int_to_double (z : Z) : double := binary_normalize 53 1024 z 0 false.

(** ** [float]: binary32 *)

Definition float : Type := spec_float.

Definition fadd : float -> float -> float := SFadd 24 128.
Definition fsub : float -> float -> float := SFsub 24 128.
Definition fneg : float -> float := SFopp.

(** Conversion [float -> double]: the same number, with the mantissa
    brought to binary64's canonical form. *)
Definition float_to_double (f : float) : double :=
  match f with
  | S754_finite s m e => binary_normalize 53 1024 (cond_Zopp s (Zpos m)) e s
  | _ => f
  end.

(** Classification of a [double]. *)
Definition is_zero (d : double) : bool :=
  match d with S754_zero _ => true | _ => false end.

Definition is_nan (d : double) : bool :=
  match d with S754_nan => true | _ => false end.

Definition is_finite (d : double) : bool :=
  match d with S754_zero _ | S754_finite _ _ _ => true | _ => false end.

(* ===================================================================== *)
(** * Exceptions of [lsst::pex::exceptions] *)
(* ===================================================================== *)

(** The two exception classes the sources throw, with the text given to
    [LSST_EXCEPT]. *)
Inductive Exception : Type :=
| RuntimeErrorException (what : string)
| NotFoundException (what : string).

(** A C++ function that returns [A] or throws. *)
Definition throws (A : Type) : Type := (Exception + A)%type.

(* ===================================================================== *)
(** * Collaborators the sources use but do not define *)
(* ===================================================================== *)

(** Modelled from the spec: the [Centroid] value type of [Centroid.h], which
    the sources include but which is not among them: "a 2-D position plus
    per-axis error", "(x, y) plus (xErr, yErr)".  The two-coordinate
    constructor that [doApply] calls "returns a Centroid with unset error
    fields"; an unset field is [None]. *)
Module Centroid.
Record t : Type := mk {
  getX : double;
  getY : double;
  getXErr : option double;
  getYErr : option double
}.

Definition make (x y : double) : t := mk x y None None.
End Centroid.

(** [lsst::afw::math::Kernel]: "a finite 2-D weight array" with a known
    width and height.  [Kernel::Ptr] is a shared pointer and may be null. *)
Module Kernel.
Record t : Type := mk {
  getWidth : Z;
  getHeight : Z;
  weight : Z -> Z -> double
}.

Definition Ptr : Type := option t.
End Kernel.

(** [lsst::afw::image::Image<PixelT>]: the origin of the image in its
    parent's frame and its pixels in image-local coordinates.  [xy_at]
    builds a locator at a pixel; applying the locator to [(dx, dy)] reads
    the pixel that far from it. *)
Module Image.
Record t (P : Type) : Type := mk {
  getX0 : Z;
  getY0 : Z;
  pixel : Z -> Z -> P
}.
Arguments mk {P} _ _ _.
Arguments getX0 {P} _.
Arguments getY0 {P} _.
Arguments pixel {P} _ _ _.

Definition xy_locator (P : Type) : Type := Z -> Z -> P.

Definition xy_at {P : Type} (image : t P) (x y : Z) : xy_locator P :=
  fun dx dy => pixel image (x + dx) (y + dy).
End Image.

(** The arithmetic of a pixel type, as [doApply] uses it: binary [+] and
    [-], unary [-], and the conversion to [double] that C++ inserts where a
    pixel expression meets a [double]. *)
Class PixelT (P : Type) : Type := {
  padd : P -> P -> P;
  pneg : P -> P;
  psub : P -> P -> P;
  pixel_to_double : P -> double
}.

(** [Image<int>] *)
#[export] Instance PixelT_int : PixelT Z := {
  padd := int_add;
  pneg := int_neg;
  psub := int_sub;
  pixel_to_double := int_to_double
}.

(** [Image<float>] *)
#[export] Instance PixelT_float : PixelT float := {
  padd := fadd;
  pneg := fneg;
  psub := fsub;
  pixel_to_double := float_to_double
}.

Declare Scope pixel_scope.
Delimit Scope pixel_scope with pixel.
Notation "a + b" := (padd a b) : pixel_scope.
Notation "a - b" := (psub a b) : pixel_scope.
Notation "- a" := (pneg a) : pixel_scope.

(* ===================================================================== *)
(** * PSF.h *)
(* ===================================================================== *)

Module PSF.

(** The data members of [class PSF] and its one pure virtual function.
    [doGetValue] is a member function of the derived class: besides what
    that class adds, it can read the members of the object it is called
    on, which are its first three arguments here. *)
Record t : Type := mk {
  _kernel : Kernel.Ptr;
  _width : Z;
  _height : Z;
  doGetValue : Kernel.Ptr -> Z -> Z -> double -> double -> Z -> Z -> double
}.

(** Modelled from the spec: [PSF::getKernel], declared in [PSF.h] and
    defined in a file that is not among the sources.  A PSF "owns zero or
    one rasterization kernel"; the accessor hands out that kernel. *)
Definition getKernel (psf : t) : Kernel.Ptr := _kernel psf.

Definition getValue (psf : t) (dx dy : double)
    (xPositionInImage yPositionInImage : Z) : double :=
  doGetValue psf (_kernel psf) (_width psf) (_height psf)
    dx dy xPositionInImage yPositionInImage.

(** The setters take an [int]: a wider number arrives reduced to one. *)
Definition setWidth (psf : t) (width : Z) : t :=
  mk (_kernel psf) (wrap width) (_height psf) (doGetValue psf).
Definition getWidth (psf : t) : Z := _width psf.
Definition setHeight (psf : t) (height : Z) : t :=
  mk (_kernel psf) (_width psf) (wrap height) (doGetValue psf).
Definition getHeight (psf : t) : Z := _height psf.
Definition getDimensions (psf : t) : Z * Z := (_width psf, _height psf).

Definition Ptr : Type := t.

Section Convolve.
(** [lsst::afw::math::convolve] is the generic convolution of the image
    library.  [Outcome] is whatever a call of it amounts to: the convolved
    image it writes, or a failure of its own. *)
Variables ImageT Outcome : Type.
Variable afw_math_convolve : ImageT -> ImageT -> Kernel.t -> bool -> Z -> Outcome.

Definition convolve (psf : t) (convolvedImage inImage : ImageT)
    (doNormalize : bool) (edgeBit : Z) : throws Outcome :=
  match getKernel psf with
  | None =>
      inl (RuntimeErrorException
             "PSF does not have a realisation that can be used for convolution")
  | Some kernel =>
      if (Kernel.getWidth kernel <=? 0) || (Kernel.getHeight kernel <=? 0)
      then inl (RuntimeErrorException
             "PSF does not have a realisation that can be used for convolution")
      else inr (afw_math_convolve convolvedImage inImage kernel doNormalize edgeBit)
  end.
End Convolve.
Arguments convolve {ImageT Outcome} afw_math_convolve psf convolvedImage inImage
  doNormalize edgeBit.

Section RegisterMe.
(** [registerMe<PsfT, PsfFactorySignatureT>] is one function per pair of
    template arguments, each with its own function-local static
    [_registered].  [Inst] is the type of those pairs; the statics that
    have become true form a finite set.  [PsfFactoryBase] is only forward
    declared at this point of the header, and [PSF::declare] is defined in
    a file that is not among the sources: both are parameters, and so is
    the registry [declare] writes to. *)
Context {Inst : Type} `{Countable Inst}.
Variables PsfFactoryBase Registry : Type.
Variable new_PsfFactory : Inst -> PsfFactoryBase.
Variable declare : string -> PsfFactoryBase -> Registry -> throws Registry.

Record statics : Type := mkStatics {
  _registered : gset Inst;
  registry : Registry
}.

(** Every function-local [_registered] starts out false. *)
Definition startup (r : Registry) : statics := mkStatics ∅ r.

(** [factory->markPersistent()] only exempts the factory from the leak
    checker and has no counterpart here.  An exception of [declare] leaves
    the function before [_registered] is assigned. *)
Definition registerMe (inst : Inst) (name : string) (s : statics)
    : throws (bool * statics) :=
  if decide (inst ∈ _registered s) then inr (true, s)
  else
    let factory := new_PsfFactory inst in
    match declare name factory (registry s) with
    | inl e => inl e
    | inr r => inr (true, mkStatics ({[ inst ]} ∪ _registered s) r)
    end.
End RegisterMe.
Arguments statics Inst {_ _} Registry.
Arguments mkStatics {Inst _ _ Registry} _registered registry.
Arguments _registered {Inst _ _ Registry} s.
Arguments registry {Inst _ _ Registry} s.
Arguments startup {Inst _ _ Registry} r.
Arguments registerMe {Inst _ _ PsfFactoryBase Registry} new_PsfFactory declare
  inst name s.

End PSF.

(** ** [PsfFactoryBase] and the two specialisations of [PsfFactory] *)

Module PsfFactoryBase.

(** The virtual table: the two overloads of [create]. *)
Record t : Type := mk {
  create_params : Z -> Z -> double -> double -> double -> throws PSF.Ptr;
  create_kernel : Kernel.Ptr -> throws PSF.Ptr
}.

(** The bodies [PsfFactoryBase] itself gives to the two overloads. *)
Definition create_params_default (_ _ : Z) (_ _ _ : double) : throws PSF.Ptr :=
  inl (NotFoundException
         "This PSF type doesn't have an (int, int, double, double, double) constructor").

Definition create_kernel_default (_ : Kernel.Ptr) : throws PSF.Ptr :=
  inl (NotFoundException
         "This PSF type doesn't have a (lsst::afw::math::Kernel::Ptr) constructor").

Definition base : t := mk create_params_default create_kernel_default.

End PsfFactoryBase.

(** The two signatures [PsfFactory] is specialised for. *)
Inductive PsfFactorySignatureT : Type :=
| Sig_tuple    (* boost::tuple<int, int, double, double, double> *)
| Sig_kernel.  (* lsst::afw::math::Kernel::Ptr *)

#[export] Instance PsfFactorySignatureT_eq_dec : EqDecision PsfFactorySignatureT.
Proof. solve_decision. Defined.

#[export] Instance PsfFactorySignatureT_countable : Countable PsfFactorySignatureT.
Proof.
  refine (inj_countable'
            (fun sig => match sig with Sig_tuple => false | Sig_kernel => true end)
            (fun b : bool => if b then Sig_kernel else Sig_tuple) _).
  intros []; reflexivity.
Defined.

(** How a signature is written in the text of an exception. *)
Definition signature_text (sig : PsfFactorySignatureT) : string :=
  match sig with
  | Sig_tuple => "(int, int, double, double, double)"
  | Sig_kernel => "(lsst::afw::math::Kernel::Ptr)"
  end.

(** [what] contains [text]. *)
Definition mentions (what text : string) : bool :=
  match String.index 0 text what with
  | Some _ => true
  | None => false
  end.

(** A concrete PSF class [PsfT] enters through the constructor the factory
    calls; like any constructor it returns the object or throws. *)
Class ParamConstructible (PsfT : Type) : Type :=
  new_from_params : Z -> Z -> double -> double -> double -> throws PSF.t.

Class KernelConstructible (PsfT : Type) : Type :=
  new_from_kernel : Kernel.Ptr -> throws PSF.t.

Module PsfFactory.

(** [PsfFactory<PsfT, boost::tuple<int, int, double, double, double> >] *)
Definition tuple (PsfT : Type) `{ParamConstructible PsfT} : PsfFactoryBase.t :=
  PsfFactoryBase.mk
    (fun width height p0 p1 p2 =>
       new_from_params (PsfT:=PsfT) width height p0 p1 p2)
    (fun ptr => PsfFactoryBase.create_kernel_default ptr).

(** [PsfFactory<PsfT, lsst::afw::math::Kernel::Ptr>] *)
Definition kernel (PsfT : Type) `{KernelConstructible PsfT} : PsfFactoryBase.t :=
  PsfFactoryBase.mk
    (fun width height p0 p1 p2 =>
       PsfFactoryBase.create_params_default width height p0 p1 p2)
    (fun kernel => new_from_kernel (PsfT:=PsfT) kernel).

End PsfFactory.

(* ===================================================================== *)
(** * NaiveCentroid.cc *)
(* ===================================================================== *)

Module NaiveMeasureCentroid.

Section DoApply.
(** One instantiation of the class template: the pixel type of [ImageT]. *)
Context {P : Type} `{PixelT P}.

(** [lsst::afw::image::indexToPosition] belongs to the image library: the
    position of the centre of the pixel with a given index. *)
Variable indexToPosition : Z -> double.

(** The text [boost::format] produces for the exception. *)
Definition no_counts (x y : Z) : string :=
  "Object at (" +:+ pretty x +:+ ", " +:+ pretty y +:+ ") has no counts".

Local Open Scope pixel_scope.

Definition doApply (image : Image.t P) (x y : Z) (psf : option PSF.t)
    (background : double) : throws Centroid.t :=
  (* work in image Pixel coordinates *)
  let x := int_sub x (Image.getX0 image) in
  let y := int_sub y (Image.getY0 image) in
  let im := Image.xy_at image x y in
  let sum :=
    dsub (pixel_to_double
            (im (-1)%Z 1%Z    + im 0%Z 1%Z    + im 1%Z 1%Z +
             im (-1)%Z 0%Z    + im 0%Z 0%Z    + im 1%Z 0%Z +
             im (-1)%Z (-1)%Z + im 0%Z (-1)%Z + im 1%Z (-1)%Z))
         (dmul (int_to_double 9) background) in
  if deqb sum dzero then
    inl (RuntimeErrorException (no_counts x y))
  else
    let sum_x :=
      pixel_to_double
        (- im (-1)%Z 1%Z    + im 1%Z 1%Z +
         - im (-1)%Z 0%Z    + im 1%Z 0%Z +
         - im (-1)%Z (-1)%Z + im 1%Z (-1)%Z) in
    let sum_y :=
      pixel_to_double
        ((im (-1)%Z 1%Z    + im 0%Z 1%Z    + im 1%Z 1%Z) -
         (im (-1)%Z (-1)%Z + im 0%Z (-1)%Z + im 1%Z (-1)%Z)) in
    inr (Centroid.make
           (dadd (indexToPosition (int_add x (Image.getX0 image))) (ddiv sum_x sum))
           (dadd (indexToPosition (int_add y (Image.getY0 image))) (ddiv sum_y sum))).

End DoApply.

End NaiveMeasureCentroid.

(* ===================================================================== *)
(** * Shape.h *)
(* ===================================================================== *)

Module Shape.

(** [Eigen::Matrix4f]: four rows of four [float]s; [coeff] is its
    [operator()(row, col)]. *)
Definition Matrix4 : Type := vec (vec float 4) 4.

Definition coeff (m : Matrix4) (row col : fin 4) : float := (m !!! row) !!! col.

Record t : Type := mk {
  _centroid : Centroid.t;
  _m0 : double;
  _mxx : double;
  _mxy : double;
  _myy : double;
  _covar : Matrix4;
  _mxy4 : double;
  _flags : Z
}.

(** The constructor.  [Eigen] leaves the coefficients of a default
    constructed fixed-size matrix indeterminate: [covar0] is what happens
    to be there. *)
Definition make (covar0 : Matrix4) (m0 mxx mxy myy : double)
    (centroid : Centroid.t) : t :=
  mk centroid m0 mxx mxy myy covar0 NAN 0.

Definition getCentroid (s : t) : Centroid.t := _centroid s.

Definition setM0 (s : t) (m0 : double) : t :=
  mk (_centroid s) m0 (_mxx s) (_mxy s) (_myy s) (_covar s) (_mxy4 s) (_flags s).
Definition getM0 (s : t) : double := _m0 s.
Definition getM0Err (s : t) : double := float_to_double (coeff (_covar s) 0%fin 0%fin).

Definition setMxx (s : t) (mxx : double) : t :=
  mk (_centroid s) (_m0 s) mxx (_mxy s) (_myy s) (_covar s) (_mxy4 s) (_flags s).
Definition getMxx (s : t) : double := _mxx s.
Definition getMxxErr (s : t) : double := float_to_double (coeff (_covar s) 1%fin 1%fin).

Definition setMxy (s : t) (mxy : double) : t :=
  mk (_centroid s) (_m0 s) (_mxx s) mxy (_myy s) (_covar s) (_mxy4 s) (_flags s).
Definition getMxy (s : t) : double := _mxy s.
Definition getMxyErr (s : t) : double := float_to_double (coeff (_covar s) 2%fin 2%fin).

Definition setMyy (s : t) (myy : double) : t :=
  mk (_centroid s) (_m0 s) (_mxx s) (_mxy s) myy (_covar s) (_mxy4 s) (_flags s).
Definition getMyy (s : t) : double := _myy s.
Definition getMyyErr (s : t) : double := float_to_double (coeff (_covar s) 3%fin 3%fin).

Definition setMxy4 (s : t) (mxy4 : double) : t :=
  mk (_centroid s) (_m0 s) (_mxx s) (_mxy s) (_myy s) (_covar s) mxy4 (_flags s).
Definition getMxy4 (s : t) : double := _mxy4 s.

(** [setFlags] takes an [int]: a wider number arrives reduced to one. *)
Definition setFlags (s : t) (flags : Z) : t :=
  mk (_centroid s) (_m0 s) (_mxx s) (_mxy s) (_myy s) (_covar s) (_mxy4 s) (wrap flags).
Definition getFlags (s : t) : Z := _flags s.

Definition setCovar (s : t) (covar : Matrix4) : t :=
  mk (_centroid s) (_m0 s) (_mxx s) (_mxy s) (_myy s) covar (_mxy4 s) (_flags s).
Definition getCovar (s : t) : Matrix4 := _covar s.

(** Modelled from the spec: [Shape::getE1], declared in [Shape.h] with its
    body in a file that is not among the sources:
    "e1 = (mxx - myy) / (mxx + myy)", evaluated in [double]. *)
Definition getE1 (s : t) : double :=
  ddiv (dsub (_mxx s) (_myy s)) (dadd (_mxx s) (_myy s)).

(** Modelled from the spec: [Shape::getE2], declared in [Shape.h] with its
    body in a file that is not among the sources:
    "e2 = 2 mxy / (mxx + myy)", evaluated in [double]. *)
Definition getE2 (s : t) : double :=
  ddiv (dmul (int_to_double 2) (_mxy s)) (dadd (_mxx s) (_myy s)).

End Shape.

(* ===================================================================== *)
(** * The algorithm registry *)
(* ===================================================================== *)

(** Modelled from the spec: the registry behind [PSF::declare] and the
    [registerType] of the measurement classes, none of which is among the
    sources.  "register(name) -> tag: if name is already registered,
    returns the existing tag (idempotent, no duplicate entries); otherwise
    allocates a fresh tag and stores the mapping."  "lookup(name) -> tag
    fails with a NotFound error if name was never registered."  Tags are
    "never reused": a fresh tag is the number of tags handed out so far. *)
Module AlgorithmRegistry.

Record t : Type := mk {
  tags : gmap string Z;
  allocated : Z
}.

Definition empty : t := mk ∅ 0.

Definition register (name : string) (r : t) : Z * t :=
  match tags r !! name with
  | Some tag => (tag, r)
  | None => (allocated r, mk (<[name := allocated r]> (tags r)) (allocated r + 1))
  end.

Definition lookup (name : string) (r : t) : throws Z :=
  match tags r !! name with
  | Some tag => inr tag
  | None => inl (NotFoundException name)
  end.

(** The number of entries. *)
Definition count (r : t) : nat := size (tags r).

(** Modelled from the spec: [PSF::declare], which [PSF.h] declares and a
    file that is not among the sources defines, as a registration of the
    name: "if name is already registered ... idempotent, no duplicate
    entries; otherwise allocates a fresh tag and stores the mapping". *)
Definition declare {Factory : Type} (name : string) (factory : Factory) (r : t)
    : throws t :=
  inr (snd (register name r)).

(** Registering a list of names, first to last. *)
Definition register_all (names : list string) (r : t) : t :=
  foldl (fun r name => snd (register name r)) r names.

End AlgorithmRegistry.

(* ===================================================================== *)
(** * The centroid as the specification words it *)
(* ===================================================================== *)

Module NaiveCentroidSpec.

Section Sums.
Context {P : Type} `{PixelT P}.
Local Open Scope pixel_scope.

(** A sum over the three offsets [-1], [0], [1]. *)
Definition sum3 (f : Z -> P) : P := f (-1)%Z + f 0%Z + f 1%Z.

(** The offsets of the neighbourhood after the first one, [(-1, 1)], read
    row by row from the top row. *)
Definition others : list (Z * Z) :=
  [ (0, 1); (1, 1); (-1, 0); (0, 0); (1, 0); (-1, -1); (0, -1); (1, -1) ]%Z.

(** "sum of all 9 pixel values" *)
Definition total (im : Image.xy_locator P) : P :=
  foldl (fun acc d => acc + im d.1 d.2) (im (-1)%Z 1%Z) others.

(** The sum of a column "over the 3 rows" and of a row "over the 3
    columns". *)
Definition column_sum (im : Image.xy_locator P) (dx : Z) : P :=
  sum3 (fun dy => im dx dy).
Definition row_sum (im : Image.xy_locator P) (dy : Z) : P :=
  sum3 (fun dx => im dx dy).

(** "sum = (sum of all 9 pixel values) - 9 x background" *)
Definition sum (im : Image.xy_locator P) (background : double) : double :=
  dsub (pixel_to_double (total im)) (dmul (int_to_double 9) background).

(** "sum_x = (right column sum) - (left column sum)" *)
Definition sum_x (im : Image.xy_locator P) : double :=
  pixel_to_double (column_sum im 1%Z - column_sum im (-1)%Z).

(** The same difference taken "over the 3 rows" one row at a time, from
    the top row down: right pixel minus left pixel, added up. *)
Definition sum_x_by_rows (im : Image.xy_locator P) : double :=
  pixel_to_double
    (foldl (fun acc dy => acc + - im (-1)%Z dy + im 1%Z dy)
           (- im (-1)%Z 1%Z + im 1%Z 1%Z) [0; -1]%Z).

(** "sum_y = (top row sum) - (bottom row sum)" *)
Definition sum_y (im : Image.xy_locator P) : double :=
  pixel_to_double (row_sum im 1%Z - row_sum im (-1)%Z).

(** The 3x3 neighbourhood "centered at the origin-translated (x, y)". *)
Definition neighbourhood (image : Image.t P) (x y : Z) : Image.xy_locator P :=
  Image.xy_at image (int_sub x (Image.getX0 image)) (int_sub y (Image.getY0 image)).

(** "(pixelCenter(x) + sum_x/sum, pixelCenter(y) + sum_y/sum) in the
    original (un-translated) coordinate frame", first for given sums, then
    for the sums of the neighbourhood, with [sum_x] either way. *)
Definition centroid_of (pixelCenter : Z -> double) (x y : Z)
    (sum_x sum_y sum : double) : Centroid.t :=
  Centroid.make
    (dadd (pixelCenter x) (ddiv sum_x sum))
    (dadd (pixelCenter y) (ddiv sum_y sum)).

Definition centroid (pixelCenter : Z -> double) (image : Image.t P) (x y : Z)
    (background : double) : Centroid.t :=
  let im := neighbourhood image x y in
  centroid_of pixelCenter x y (sum_x im) (sum_y im) (sum im background).

Definition centroid_by_rows (pixelCenter : Z -> double) (image : Image.t P)
    (x y : Z) (background : double) : Centroid.t :=
  let im := neighbourhood image x y in
  centroid_of pixelCenter x y (sum_x_by_rows im) (sum_y im) (sum im background).
End Sums.

End NaiveCentroidSpec.

(** Pixel arithmetic in which sums may be regrouped and reordered, and in
    which subtracting is adding the opposite. *)
Class PixelLaws (P : Type) `{PixelT P} : Prop := {
  padd_assoc : forall a b c : P, padd a (padd b c) = padd (padd a b) c;
  padd_comm : forall a b : P, padd a b = padd b a;
  psub_padd_pneg : forall a b : P, psub a b = padd a (pneg b);
  pneg_padd : forall a b : P, pneg (padd a b) = padd (pneg a) (pneg b)
}.


(* ===================================================================== *)
(** * Comparing numbers *)
(* ===================================================================== *)

(** A [spec_float] that is a number of the binary32, respectively of the
    binary64, format. *)
Definition is_float (f : float) : Prop := valid_binary 24 128 f = true.
Definition is_double (d : double) : Prop := valid_binary 53 1024 d = true.

(** The two are the same number: the same special value, or the same sign
    and [m * 2 ^ e = m' * 2 ^ e']. *)
Definition same_value (a b : spec_float) : Prop :=
  match a, b with
  | S754_zero s, S754_zero s' => s = s'
  | S754_infinity s, S754_infinity s' => s = s'
  | S754_nan, S754_nan => True
  | S754_finite s m e, S754_finite s' m' e' =>
      s = s' /\ e' <= e /\ Zpos m' = Zpos m * 2 ^ (e - e')
  | _, _ => False
  end.

(** A nonzero number of sign [s] in the format given by [prec] and [emax]:
    an infinity, or a finite number whose exponent is not below [emin]. *)
Definition signed_nonzero (prec emax : Z) (s : bool) (x : spec_float) : Prop :=
  x = S754_infinity s \/
  exists m e, x = S754_finite s m e /\ emin prec emax <= e.

(** The two are the same up to the sign of a zero. *)
Definition same_number (a b : double) : Prop :=
  a = b \/ (is_zero a = true /\ is_zero b = true).

(* ===================================================================== *)
(** * Sample data *)
(* ===================================================================== *)

Module Samples.

(** [0.5], [1.5] and [2.0] as doubles. *)
Definition half : double := S754_finite false 4503599627370496 (-53).
Definition one_and_half : double := S754_finite false 6755399441055744 (-52).
Definition two : double := S754_finite false 4503599627370496 (-51).

(** A pixel-centre convention: "index + 0.5". *)
Definition pixelCenter (ind : Z) : double := dadd (int_to_double ind) half.

(** An [Image<int>] with origin (10, 20) whose pixel (x, y) holds
    [x + 3 y], and one whose pixels all hold [v]. *)
Definition ramp : Image.t Z := Image.mk 10 20 (fun x y => x + 3 * y).
Definition flat (v : Z) : Image.t Z := Image.mk 10 20 (fun _ _ => v).

(** An [Image<int>] that holds 7 on the 3x3 pixels around (5, 7) and 0
    everywhere else. *)
Definition spot : Image.t Z :=
  Image.mk 10 20 (fun x y =>
    if (Z.abs (x - 5) <=? 1) && (Z.abs (y - 7) <=? 1) then 7 else 0).

(** An [Image<float>] whose pixels all hold [v]. *)
Definition flat_float (v : float) : Image.t float := Image.mk 10 20 (fun _ _ => v).

(** An [Image<float>] whose column 6 holds [2 ^ 24] in row 6 and [1]
    elsewhere, all other pixels being [0]. *)
Definition uneven : Image.t float :=
  Image.mk 0 0 (fun x y =>
    if x =? 6
    then if y =? 6 then S754_finite false 8388608 1 else S754_finite false 8388608 (-23)
    else S754_zero false).

(** [1.5] and [0.25] as floats, and a 4x4 matrix with a given diagonal. *)
Definition f1_5 : float := S754_finite false 12582912 (-23).
Definition f0_25 : float := S754_finite false 8388608 (-25).
Definition f0 : float := S754_zero false.

Definition diagonal (a b c d : float) : Shape.Matrix4 :=
  [# [# a; f0; f0; f0]; [# f0; b; f0; f0]; [# f0; f0; c; f0]; [# f0; f0; f0; d] ].

Definition centroid0 : Centroid.t := Centroid.make dzero dzero.

(** A 3x3 kernel of equal weights, and a PSF that owns a given kernel. *)
Definition box3 : Kernel.t := Kernel.mk 3 3 (fun _ _ => half).
Definition psf_of (k : Kernel.Ptr) : PSF.t :=
  PSF.mk k 0 0 (fun _ _ _ _ _ _ _ => dzero).

(** A stand-in for the generic convolution that records how it was
    called. *)
Definition recorded_call : Type := (Z * Z * Kernel.t * bool * Z)%type.
Definition record_convolve (convolvedImage inImage : Z) (kernel : Kernel.t)
    (doNormalize : bool) (edgeBit : Z) : recorded_call :=
  (convolvedImage, inImage, kernel, doNormalize, edgeBit).

(** A PSF class with both constructors, the instantiations of
    [registerMe] named by class name and signature, and the factory each
    one builds. *)
Definition SamplePsf : Type := unit.
#[export] Instance SamplePsf_params : ParamConstructible SamplePsf :=
  fun width height _ _ _ =>
    inr (PSF.mk None width height (fun _ _ _ _ _ _ _ => dzero)).
#[export] Instance SamplePsf_kernel : KernelConstructible SamplePsf :=
  fun kernel => inr (psf_of kernel).

(** A stand-in for [PSF::declare] that keeps the declared names, newest
    first, and throws on a name it already has. *)
Definition declare_once (name : string) (factory : PsfFactoryBase.t)
    (names : list string) : throws (list string) :=
  if decide (name ∈ names) then inl (RuntimeErrorException name)
  else inr (name :: names).

Definition instantiation : Type := (string * PsfFactorySignatureT)%type.
Definition new_PsfFactory (inst : instantiation) : PsfFactoryBase.t :=
  match inst.2 with
  | Sig_tuple => PsfFactory.tuple SamplePsf
  | Sig_kernel => PsfFactory.kernel SamplePsf
  end.

End Samples.

(* ===================================================================== *)
(** * Runs of calls *)
(* ===================================================================== *)

(** Several calls of [PSF::registerMe] one after the other, as the file
    scope initialisers of the PSF classes make them; an exception ends the
    run. *)
Module RegisterMeRun.

Section Run.
Context {Inst : Type} `{Countable Inst}.
Variables PsfFactoryBase Registry : Type.
Variable new_PsfFactory : Inst -> PsfFactoryBase.
Variable declare : string -> PsfFactoryBase -> Registry -> throws Registry.

Fixpoint run (calls : list (Inst * string)) (s : PSF.statics Inst Registry)
    : throws (PSF.statics Inst Registry) :=
  match calls with
  | [] => inr s
  | (inst, name) :: rest =>
      match PSF.registerMe new_PsfFactory declare inst name s with
      | inl e => inl e
      | inr (_, s') => run rest s'
      end
  end.

(** The calls of [declare] alone. *)
Fixpoint declare_all (calls : list (Inst * string)) (r : Registry)
    : throws Registry :=
  match calls with
  | [] => inr r
  | (inst, name) :: rest =>
      match declare name (new_PsfFactory inst) r with
      | inl e => inl e
      | inr r' => declare_all rest r'
      end
  end.

(** The calls whose template arguments are neither in [seen] nor those of
    an earlier call. *)
Fixpoint first_calls (seen : gset Inst) (calls : list (Inst * string))
    : list (Inst * string) :=
  match calls with
  | [] => []
  | (inst, name) :: rest =>
      if decide (inst ∈ seen) then first_calls seen rest
      else (inst, name) :: first_calls ({[ inst ]} ∪ seen) rest
  end.
End Run.
Arguments run {Inst _ _ PsfFactoryBase Registry} new_PsfFactory declare calls s.
Arguments declare_all {Inst PsfFactoryBase Registry} new_PsfFactory declare calls r.
Arguments first_calls {Inst _ _} seen calls.

End RegisterMeRun.

(** Several calls of the setters of a [Shape] one after the other. *)
Module ShapeRun.

Inductive setter : Type :=
| SetM0 (m0 : double)
| SetMxx (mxx : double)
| SetMxy (mxy : double)
| SetMyy (myy : double)
| SetMxy4 (mxy4 : double)
| SetFlags (flags : Z)
| SetCovar (covar : Shape.Matrix4).

Definition call (s : Shape.t) (op : setter) : Shape.t :=
  match op with
  | SetM0 m0 => Shape.setM0 s m0
  | SetMxx mxx => Shape.setMxx s mxx
  | SetMxy mxy => Shape.setMxy s mxy
  | SetMyy myy => Shape.setMyy s myy
  | SetMxy4 mxy4 => Shape.setMxy4 s mxy4
  | SetFlags flags => Shape.setFlags s flags
  | SetCovar covar => Shape.setCovar s covar
  end.

Definition run (ops : list setter) (s : Shape.t) : Shape.t := foldl call s ops.

(** The argument of the last call in [ops] that [pick] selects, [start] if
    there is none. *)
Definition last_set {A : Type} (pick : setter -> option A) (ops : list setter)
    (start : A) : A :=
  foldl (fun acc op => default acc (pick op)) start ops.

Definition m0_of (op : setter) : option double :=
  match op with SetM0 d => Some d | _ => None end.
Definition mxx_of (op : setter) : option double :=
  match op with SetMxx d => Some d | _ => None end.
Definition mxy_of (op : setter) : option double :=
  match op with SetMxy d => Some d | _ => None end.
Definition myy_of (op : setter) : option double :=
  match op with SetMyy d => Some d | _ => None end.
Definition mxy4_of (op : setter) : option double :=
  match op with SetMxy4 d => Some d | _ => None end.
Definition flags_of (op : setter) : option Z :=
  match op with SetFlags z => Some (wrap z) | _ => None end.
Definition covar_of (op : setter) : option Shape.Matrix4 :=
  match op with SetCovar m => Some m | _ => None end.

End ShapeRun.

(** Several calls of [setWidth] and [setHeight] one after the other. *)
Module PsfRun.

Inductive setter : Type :=
| SetWidth (width : Z)
| SetHeight (height : Z).

Definition call (psf : PSF.t) (op : setter) : PSF.t :=
  match op with
  | SetWidth width => PSF.setWidth psf width
  | SetHeight height => PSF.setHeight psf height
  end.

Definition run (ops : list setter) (psf : PSF.t) : PSF.t := foldl call psf ops.

(** The [int] given to the last [setWidth], respectively [setHeight], of
    [ops]; [start] if there is none. *)
Definition last_width (ops : list setter) (start : Z) : Z :=
  foldl (fun acc op => match op with SetWidth w => wrap w | _ => acc end) start ops.
Definition last_height (ops : list setter) (start : Z) : Z :=
  foldl (fun acc op => match op with SetHeight h => wrap h | _ => acc end) start ops.

End PsfRun.

(** An image with the same pixels whose origin is moved by [(a, b)] in the
    parent's frame, and an [Image<int>] with [c] added to every pixel. *)
Definition moved {P : Type} (image : Image.t P) (a b : Z) : Image.t P :=
  Image.mk (int_add (Image.getX0 image) a) (int_add (Image.getY0 image) b)
           (Image.pixel image).

Definition raised (image : Image.t Z) (c : Z) : Image.t Z :=
  Image.mk (Image.getX0 image) (Image.getY0 image)
           (fun x y => int_add (Image.pixel image x y) c).

(* ===================================================================== *)
(** * Properties of [int] arithmetic *)
(* ===================================================================== *)

(** Decides equations and inequalities between [int] expressions: every
    [wrap] becomes a quotient and a remainder by [2 ^ 32]. *)
Ltac int_arith :=
  unfold in_int, int_add, int_sub, int_neg, wrap in *;
  change (2 ^ 32) with 4294967296 in *;
  change (2 ^ 31) with 2147483648 in *;
  Z.div_mod_to_equations; lia.

Lemma wrap_in_int (z : Z) : in_int (wrap z).
Proof. int_arith. Qed.

Lemma wrap_id (z : Z) : in_int z -> wrap z = z.
Proof. intros Hz. int_arith. Qed.

(** Translating to image coordinates and back is the identity on [int]. *)
Lemma int_untranslate (x x0 : Z) : in_int x -> int_add (int_sub x x0) x0 = x.
Proof. intros Hx. int_arith. Qed.

(** Nine equal [int] pixels sum to zero only if they are zero. *)
Lemma wrap_nine_nonzero (v : Z) : in_int v -> v <> 0 -> wrap (9 * v) <> 0.
Proof. intros Hv Hnz. int_arith. Qed.

(** [int] arithmetic obeys the laws of [PixelLaws]. *)
Lemma PixelLaws_int : PixelLaws Z.
Proof. split; simpl; intros; int_arith. Qed.

(* ===================================================================== *)
(** * Regrouping pixel sums *)
(* ===================================================================== *)

Section PixelLawsFacts.
Context {P : Type} `{PixelLaws P}.
Local Open Scope pixel_scope.

Lemma padd_medial (a b c d : P) : (a + b) + (c + d) = (a + c) + (b + d).
Proof.
  rewrite <- (padd_assoc a b), (padd_assoc b c d), (padd_comm b c).
  rewrite <- (padd_assoc c b d), (padd_assoc a c). reflexivity.
Qed.

(** Six terms accumulated pair by pair, against the sum of the second
    components and the sum of the first components taken in the opposite
    order. *)
Lemma padd_pairs (a b c d e f : P) :
  a + b + c + d + e + f = (f + d + b) + (e + c + a).
Proof.
  rewrite (padd_medial (f + d) b (e + c) a).
  rewrite (padd_medial f d e c).
  rewrite (padd_comm f e), (padd_comm d c), (padd_comm b a).
  rewrite (padd_comm (e + f + (c + d))), (padd_comm (e + f)).
  rewrite !padd_assoc. reflexivity.
Qed.

(** The difference taken row by row is the right column minus the left
    column. *)
Lemma sum_x_columns (im : Image.xy_locator P) :
  NaiveCentroidSpec.sum_x_by_rows im = NaiveCentroidSpec.sum_x im.
Proof.
  unfold NaiveCentroidSpec.sum_x_by_rows, NaiveCentroidSpec.sum_x,
    NaiveCentroidSpec.column_sum, NaiveCentroidSpec.sum3.
  f_equal. simpl foldl.
  rewrite psub_padd_pneg, !pneg_padd. apply padd_pairs.
Qed.

(** The nine pixels read row by row are the three row sums. *)
Lemma total_rows (im : Image.xy_locator P) :
  NaiveCentroidSpec.total im
  = NaiveCentroidSpec.sum3 (fun dy => NaiveCentroidSpec.row_sum im dy).
Proof.
  unfold NaiveCentroidSpec.total, NaiveCentroidSpec.row_sum, NaiveCentroidSpec.sum3.
  simpl.
  set (t := im (-1)%Z 1%Z + im 0%Z 1%Z + im 1%Z 1%Z).
  set (b := im (-1)%Z (-1)%Z + im 0%Z (-1)%Z + im 1%Z (-1)%Z).
  set (m := im (-1)%Z 0%Z + im 0%Z 0%Z + im 1%Z 0%Z).
  rewrite (padd_comm (b + m) t), (padd_comm b m), (padd_assoc t m b).
  subst t b m. rewrite !padd_assoc. reflexivity.
Qed.

End PixelLawsFacts.

(* ===================================================================== *)
(** * Properties of floating-point arithmetic *)
(* ===================================================================== *)

(** [d == 0.0] holds for the two zeros and for nothing else. *)
Lemma deqb_dzero (d : double) : deqb d dzero = is_zero d.
Proof. destruct d as [s|s| |s m e]; try destruct s; reflexivity. Qed.

(** Adding a zero changes a number at most in the sign of a zero. *)
Lemma dadd_zero_r (p o : double) : is_zero o = true -> same_number (dadd p o) p.
Proof.
  destruct o as [so| | |]; try discriminate. intros _.
  destruct p as [sp|sp| |sp m e]; simpl.
  - right. destruct sp, so; split; reflexivity.
  - left. reflexivity.
  - left. reflexivity.
  - left. reflexivity.
Qed.

(** A zero divided by a number other than a zero or a NaN is a zero. *)
Lemma ddiv_zero_l (o d : double) :
  is_zero o = true -> is_zero d = false -> is_nan d = false ->
  is_zero (ddiv o d) = true.
Proof.
  destruct o as [so| | |]; try discriminate.
  destruct d as [sd|sd| |sd m e]; try discriminate; reflexivity.
Qed.

(** A finite number minus itself is the zero [+0], in any format. *)
Lemma SFsub_diag (prec emax : Z) (x : spec_float) :
  is_finite x = true -> SFsub prec emax x x = S754_zero false.
Proof.
  destruct x as [s|s| |s m e]; try discriminate; intros _.
  - destruct s; reflexivity.
  - unfold SFsub. rewrite Z.sub_diag. reflexivity.
Qed.

Lemma dsub_diag (x : double) : is_finite x = true -> is_zero (dsub x x) = true.
Proof. intros Hx. unfold dsub. rewrite SFsub_diag by assumption. reflexivity. Qed.

(** A finite number plus its opposite is [+0], in any format. *)
Lemma SFadd_opp_l (prec emax : Z) (s : bool) (m : positive) (e : Z) :
  SFadd prec emax (SFopp (S754_finite s m e)) (S754_finite s m e) = S754_zero false.
Proof.
  unfold SFadd, SFopp, shl_align. rewrite Z.min_id, Z.sub_diag. simpl fst.
  destruct s; simpl cond_Zopp.
  - rewrite Z.add_opp_diag_r. reflexivity.
  - rewrite Z.add_opp_diag_l. reflexivity.
Qed.

(** ** Rounding never yields a NaN *)

Lemma iter_pos_preserves {A : Type} (f : A -> A) (Q : A -> Prop) :
  (forall a, Q a -> Q (f a)) -> forall n a, Q a -> Q (SpecFloat.iter_pos f n a).
Proof.
  intros Hf. induction n as [n IH|n IH|]; intros a Ha; simpl; auto.
Qed.

Lemma shr_1_nonneg (r : shr_record) : 0 <= shr_m r -> 0 <= shr_m (shr_1 r).
Proof.
  destruct r as [m r s]. destruct m as [|[p|p|]|p]; simpl; lia.
Qed.

Lemma shr_nonneg (r : shr_record) (e n : Z) :
  0 <= shr_m r -> 0 <= shr_m (fst (shr r e n)).
Proof.
  intros Hr. destruct n as [|p|p]; simpl; try assumption.
  apply (iter_pos_preserves shr_1 (fun r => 0 <= shr_m r)); [apply shr_1_nonneg | assumption].
Qed.

Lemma shr_fexp_nonneg (prec emax m e : Z) (l : location) :
  0 <= m -> 0 <= shr_m (fst (shr_fexp prec emax m e l)).
Proof.
  intros Hm. unfold shr_fexp. apply shr_nonneg.
  destruct l as [|[| |]]; simpl; assumption.
Qed.

Lemma round_nearest_even_nonneg (m : Z) (l : location) :
  0 <= m -> 0 <= round_nearest_even m l.
Proof.
  intros Hm. destruct l as [|[| |]]; simpl; try lia.
  destruct (Z.even m); lia.
Qed.

Lemma binary_round_aux_not_nan (prec emax : Z) (s : bool) (m e : Z) (l : location) :
  0 <= m -> is_nan (binary_round_aux prec emax s m e l) = false.
Proof.
  intros Hm. unfold binary_round_aux.
  pose proof (shr_fexp_nonneg prec emax m e l Hm) as H1.
  destruct (shr_fexp prec emax m e l) as [mrs' e'] eqn:E1. simpl in H1.
  pose proof (shr_fexp_nonneg prec emax
                (round_nearest_even (shr_m mrs') (loc_of_shr_record mrs')) e' loc_Exact
                (round_nearest_even_nonneg _ _ H1)) as H2.
  destruct (shr_fexp prec emax (round_nearest_even _ _) e' loc_Exact) as [mrs'' e''].
  simpl in H2.
  destruct (shr_m mrs'') as [|p|p]; try lia; [reflexivity|].
  destruct (e'' <=? emax - prec); reflexivity.
Qed.

Lemma binary_normalize_not_nan (prec emax m e : Z) (szero : bool) :
  is_nan (binary_normalize prec emax m e szero) = false.
Proof.
  destruct m as [|p|p]; simpl; [reflexivity| |];
    unfold binary_round; destruct (shl_align _ _ _) as [mz ez];
    apply binary_round_aux_not_nan; lia.
Qed.

(** The sum of two finite numbers is not a NaN. *)
Lemma dadd_finite_not_nan (x y : double) :
  is_finite x = true -> is_finite y = true -> is_nan (dadd x y) = false.
Proof.
  destruct x as [sx|sx| |sx mx ex]; try discriminate;
    destruct y as [sy|sy| |sy my ey]; try discriminate; intros _ _.
  - destruct sx, sy; reflexivity.
  - reflexivity.
  - reflexivity.
  - unfold dadd, SFadd. apply binary_normalize_not_nan.
Qed.

(** ** Binary digits *)

Lemma digits2_pos_iter_xO (m k : positive) :
  digits2_pos (Pos.iter xO m k) = (digits2_pos m + k)%positive.
Proof.
  induction k as [|k IH] using Pos.peano_ind.
  - simpl. lia.
  - rewrite Pos.iter_succ. simpl. rewrite IH. lia.
Qed.

Lemma Zpos_iter_xO (m k : positive) :
  Zpos (Pos.iter xO m k) = Zpos m * 2 ^ Zpos k.
Proof.
  induction k as [|k IH] using Pos.peano_ind.
  - simpl. lia.
  - rewrite Pos.iter_succ, Pos2Z.inj_succ, Z.pow_succ_r by lia.
    rewrite Pos2Z.inj_xO, IH. lia.
Qed.

(** A mantissa of [d] binary digits lies in [[2 ^ (d - 1), 2 ^ d)]. *)
Lemma digits2_pos_bounds (m : positive) :
  2 ^ (Zpos (digits2_pos m) - 1) <= Zpos m < 2 ^ Zpos (digits2_pos m).
Proof.
  induction m as [m IH|m IH|]; simpl digits2_pos;
    [| |simpl; lia];
    rewrite Pos2Z.inj_succ, Z.pow_succ_r by lia;
    replace (Z.succ (Zpos (digits2_pos m)) - 1)
      with (Z.succ (Zpos (digits2_pos m) - 1)) by lia;
    rewrite Z.pow_succ_r by lia; lia.
Qed.

(** ** Rounding a positive mantissa never yields a zero *)

Lemma shr_1_half (r : shr_record) : 0 <= shr_m r -> shr_m (shr_1 r) = shr_m r / 2.
Proof.
  destruct r as [m r s]. destruct m as [|[p|p|]|p]; simpl; intros Hm; try lia;
    try reflexivity.
  - rewrite Pos2Z.inj_xI. Z.div_mod_to_equations. lia.
  - rewrite Pos2Z.inj_xO. Z.div_mod_to_equations. lia.
Qed.

Lemma iter_shr_1_div (n : positive) (r : shr_record) :
  0 <= shr_m r -> shr_m (SpecFloat.iter_pos shr_1 n r) = shr_m r / 2 ^ Zpos n.
Proof.
  revert r. induction n as [n IH|n IH|]; intros r Hr; simpl SpecFloat.iter_pos.
  - assert (H1 : 0 <= shr_m (shr_1 r)) by (apply shr_1_nonneg; assumption).
    assert (H2 : 0 <= shr_m (SpecFloat.iter_pos shr_1 n (shr_1 r))).
    { apply (iter_pos_preserves shr_1 (fun r => 0 <= shr_m r)); [apply shr_1_nonneg|assumption]. }
    rewrite IH, IH, shr_1_half by assumption.
    assert (Hp : 2 ^ Zpos n~1 = 2 * 2 ^ Zpos n * 2 ^ Zpos n).
    { rewrite <- (Z.pow_1_r 2) at 2. rewrite <- !Z.pow_add_r by lia. f_equal. lia. }
    rewrite Hp, !Z.div_div by lia. f_equal; lia.
  - assert (H2 : 0 <= shr_m (SpecFloat.iter_pos shr_1 n r)).
    { apply (iter_pos_preserves shr_1 (fun r => 0 <= shr_m r)); [apply shr_1_nonneg|assumption]. }
    rewrite IH, IH by assumption.
    assert (Hp : 2 ^ Zpos n~0 = 2 ^ Zpos n * 2 ^ Zpos n).
    { rewrite <- Z.pow_add_r by lia. f_equal. lia. }
    rewrite Hp, !Z.div_div by lia. f_equal; lia.
  - rewrite shr_1_half by assumption. reflexivity.
Qed.

Lemma shr_fexp_pos (prec emax m e : Z) (l : location) :
  0 < prec -> 0 < m -> emin prec emax <= e ->
  0 < shr_m (fst (shr_fexp prec emax m e l)) /\
  emin prec emax <= snd (shr_fexp prec emax m e l).
Proof.
  intros Hprec Hm He. unfold shr_fexp, shr.
  assert (Hloc : shr_m (shr_record_of_loc m l) = m)
    by (destruct l as [|[| |]]; reflexivity).
  destruct m as [|p|p]; try lia. simpl Zdigits2.
  pose proof (digits2_pos_bounds p) as [Hlo _].
  set (d := Zpos (digits2_pos p)) in *.
  destruct (fexp prec emax (d + e) - e) as [|n|n] eqn:Hn; simpl; rewrite ?Hloc; try lia.
  rewrite iter_shr_1_div by (rewrite Hloc; lia). rewrite Hloc.
  unfold fexp in Hn. split; [|unfold fexp; lia].
  apply Z.div_str_pos. split; [lia|].
  assert (Hnd : Zpos n <= d - 1) by lia.
  apply Z.le_trans with (2 ^ (d - 1)); [|assumption].
  apply Z.pow_le_mono_r; lia.
Qed.

Lemma round_nearest_even_ge (m : Z) (l : location) : m <= round_nearest_even m l.
Proof. destruct l as [|[| |]]; simpl; try lia. destruct (Z.even m); lia. Qed.

Lemma binary_round_aux_signed (prec emax : Z) (s : bool) (m e : Z) (l : location) :
  0 < prec -> 0 < m -> emin prec emax <= e ->
  signed_nonzero prec emax s (binary_round_aux prec emax s m e l).
Proof.
  intros Hprec Hm He. unfold binary_round_aux.
  pose proof (shr_fexp_pos prec emax m e l Hprec Hm He) as [H1 H1e].
  destruct (shr_fexp prec emax m e l) as [mrs' e']. simpl in H1, H1e.
  pose proof (round_nearest_even_ge (shr_m mrs') (loc_of_shr_record mrs')) as Hr.
  pose proof (shr_fexp_pos prec emax
                (round_nearest_even (shr_m mrs') (loc_of_shr_record mrs')) e' loc_Exact
                Hprec ltac:(lia) H1e) as [H2 H2e].
  destruct (shr_fexp prec emax (round_nearest_even _ _) e' loc_Exact) as [mrs'' e''].
  simpl in H2, H2e.
  destruct (shr_m mrs'') as [|p|p]; try lia.
  destruct (e'' <=? emax - prec); [right; eauto | left; reflexivity].
Qed.

Lemma binary_round_signed (prec emax : Z) (s : bool) (m : positive) (e : Z) :
  0 < prec -> emin prec emax <= e ->
  signed_nonzero prec emax s (binary_round prec emax s m e).
Proof.
  intros Hprec He. unfold binary_round, shl_align.
  destruct (fexp prec emax (Z.pos (digits2_pos m) + e) - e) as [|k|k] eqn:Hk;
    apply binary_round_aux_signed; try lia.
  unfold fexp in *. lia.
Qed.

(** Adding a finite number to a nonzero number of the same sign gives a
    nonzero number of that sign: no cancellation, no underflow to zero. *)
Lemma SFadd_same_sign (prec emax : Z) (s : bool) (x : spec_float) (m : positive) (e : Z) :
  0 < prec -> emin prec emax <= e ->
  signed_nonzero prec emax s x ->
  signed_nonzero prec emax s (SFadd prec emax x (S754_finite s m e)).
Proof.
  intros Hprec He [->|(mx & ex & -> & Hex)].
  - left. reflexivity.
  - unfold SFadd.
    destruct s; simpl cond_Zopp; simpl binary_normalize;
     apply binary_round_signed; lia.
Qed.

(** ** Embedding short mantissas into binary64 *)

(** A number whose mantissa has at most 53 digits and whose exponent is in
    range is a binary64 number: rounding only shifts the mantissa into
    canonical position. *)
Lemma binary_round_embed (s : bool) (m : positive) (e : Z) :
  Zpos (digits2_pos m) <= 53 ->
  -1074 <= Zpos (digits2_pos m) + e - 53 ->
  Zpos (digits2_pos m) + e <= 1024 ->
  exists m' e',
    binary_round 53 1024 s m e = S754_finite s m' e' /\
    e' <= e /\ Zpos m' = Zpos m * 2 ^ (e - e') /\
    bounded 53 1024 m' e' = true.
Proof.
  intros Hd Hlo Hhi.
  unfold binary_round.
  set (d := Zpos (digits2_pos m)) in *.
  assert (Hfexp : fexp 53 1024 (d + e) = d + e - 53).
  { unfold fexp, emin. lia. }
  rewrite Hfexp.
  assert (Haux : forall mz ez,
            Zpos (digits2_pos mz) = 53 -> -1074 <= ez -> ez <= 971 ->
            binary_round_aux 53 1024 s (Zpos mz) ez loc_Exact = S754_finite s mz ez
            /\ bounded 53 1024 mz ez = true).
  { intros mz ez Hmz Hez1 Hez2.
    assert (Hf : fexp 53 1024 (Zpos (digits2_pos mz) + ez) - ez = 0).
    { rewrite Hmz. unfold fexp, emin. lia. }
    unfold binary_round_aux, shr_fexp. simpl Zdigits2. rewrite Hf. simpl.
    rewrite Hf. simpl.
    replace (ez <=? 1024 - 53) with true by (symmetry; apply Z.leb_le; lia).
    split; [reflexivity|].
    unfold bounded, canonical_mantissa.
    apply andb_true_intro. split; [apply Z.eqb_eq; lia | apply Z.leb_le; lia]. }
  unfold shl_align.
  destruct (d + e - 53 - e) as [|k|k] eqn:Hk; try lia.
  - destruct (Haux m e) as [-> Hb]; try (fold d; lia).
    exists m, e. repeat split; try lia; [|assumption].
    rewrite Z.sub_diag. simpl. lia.
  - destruct (Haux (Pos.iter xO m k) (d + e - 53)) as [-> Hb]; try lia.
    { rewrite digits2_pos_iter_xO. fold d. lia. }
    exists (Pos.iter xO m k), (d + e - 53). repeat split; try lia; [|assumption].
    rewrite Zpos_iter_xO. f_equal. f_equal. lia.
Qed.

(** The conversion of a [float] to [double] is exact. *)
Lemma float_to_double_exact (f : float) :
  is_float f -> same_value f (float_to_double f) /\ is_double (float_to_double f).
Proof.
  unfold is_float, is_double.
  destruct f as [s|s| |s m e]; simpl; intros Hf; try (split; reflexivity).
  unfold bounded, canonical_mantissa in Hf.
  apply andb_prop in Hf. destruct Hf as [Hc He].
  apply Z.eqb_eq in Hc. apply Z.leb_le in He. unfold fexp, emin in Hc.
  destruct (binary_round_embed s m e) as (m' & e' & Hr & Hle & Hm & Hb); try lia.
  assert (Hn : binary_normalize 53 1024 (cond_Zopp s (Zpos m)) e s
               = S754_finite s m' e').
  { destruct s; simpl; exact Hr. }
  rewrite Hn. simpl. auto.
Qed.

(** The conversion of an [int] to [double] is exact, and yields a zero only
    for [0]. *)
Lemma int_to_double_exact (z : Z) :
  in_int z -> z <> 0 ->
  exists m e, int_to_double z = S754_finite (z <? 0) m e /\
              e <= 0 /\ Zpos m = Z.abs z * 2 ^ (- e).
Proof.
  unfold in_int. intros Hz Hnz.
  assert (Hd : forall p, Zpos p <= 2 ^ 31 -> Zpos (digits2_pos p) <= 32).
  { intros p Hp. pose proof (digits2_pos_bounds p) as [Hlo _].
    assert (Hle : 2 ^ (Zpos (digits2_pos p) - 1) <= 2 ^ 31) by lia.
    apply Z.pow_le_mono_r_iff in Hle; lia. }
  destruct z as [|p|p]; [congruence| |]; unfold int_to_double; simpl binary_normalize.
  - destruct (binary_round_embed false p 0) as (m & e & Hr & Hle & Hm & _);
      try (specialize (Hd p); lia).
    exists m, e. rewrite Hr. repeat split; [lia|]. rewrite Hm. reflexivity.
  - destruct (binary_round_embed true p 0) as (m & e & Hr & Hle & Hm & _);
      try (specialize (Hd p); lia).
    exists m, e. rewrite Hr. repeat split; [lia|]. rewrite Hm. reflexivity.
Qed.

(** ** Widening, and sums of equal floats *)

(** Widening keeps a nonzero number nonzero and its sign. *)
Lemma float_to_double_signed (s : bool) (x : float) :
  signed_nonzero 24 128 s x -> signed_nonzero 53 1024 s (float_to_double x).
Proof.
  intros [->|(m & e & -> & He)]; [left; reflexivity|].
  unfold float_to_double.
  destruct s; simpl cond_Zopp; simpl binary_normalize;
    apply binary_round_signed; unfold emin in *; lia.
Qed.

Lemma signed_nonzero_class (prec emax : Z) (s : bool) (x : spec_float) :
  signed_nonzero prec emax s x -> is_zero x = false /\ is_nan x = false.
Proof. intros [->|(m & e & -> & _)]; split; reflexivity. Qed.

Lemma dsub_zero_r (x o : double) :
  is_zero o = true -> is_nan x = false -> is_zero x = false -> dsub x o = x.
Proof.
  destruct o as [so| | |]; try discriminate.
  destruct x as [sx|sx| |sx m e]; try discriminate; reflexivity.
Qed.

Lemma dmul_nine_zero (o : double) :
  is_zero o = true -> is_zero (dmul (int_to_double 9) o) = true.
Proof. destruct o as [so| | |]; try discriminate. reflexivity. Qed.

(** The six signed terms of [sum_x] cancel pair by pair when the pixels are
    one finite float. *)
Lemma float_sum_x_cancels (v : float) :
  is_finite v = true -> is_zero v = false ->
  fadd (fadd (fadd (fadd (fadd (fneg v) v) (fneg v)) v) (fneg v)) v = S754_zero false.
Proof.
  destruct v as [s|s| |s m e]; try discriminate; intros _ _.
  unfold fadd, fneg.
  rewrite SFadd_opp_l.
  change (SFadd 24 128 (S754_zero false) (SFopp (S754_finite s m e)))
    with (SFopp (S754_finite s m e)).
  rewrite SFadd_opp_l.
  change (SFadd 24 128 (S754_zero false) (SFopp (S754_finite s m e)))
    with (SFopp (S754_finite s m e)).
  apply SFadd_opp_l.
Qed.

(** Nine copies of one nonzero float, added up, are not zero and not a
    NaN. *)
Lemma float_nine_nonzero (v : float) :
  is_float v -> is_finite v = true -> is_zero v = false ->
  exists s, signed_nonzero 24 128 s
              (fadd (fadd (fadd (fadd (fadd (fadd (fadd (fadd v v) v) v) v) v) v) v) v).
Proof.
  destruct v as [sv|sv| |s m e]; try discriminate; intros Hfloat _ _.
  assert (He : emin 24 128 <= e).
  { unfold is_float in Hfloat. simpl in Hfloat.
    apply andb_prop in Hfloat. destruct Hfloat as [Hc _].
    apply Z.eqb_eq in Hc. unfold fexp in Hc. lia. }
  exists s. unfold fadd.
  repeat apply SFadd_same_sign; try lia. right. eauto.
Qed.

(* ===================================================================== *)
(** * The naive centroid *)
(* ===================================================================== *)

Section NaiveCentroidFacts.
Context {P : Type} `{PixelT P}.
Variable indexToPosition : Z -> double.

(** What [doApply] does, with the guard and the sums named as the
    specification names them, [sum_x] being taken row by row. *)
Lemma doApply_unfold (image : Image.t P) (x y : Z) (psf : option PSF.t)
    (background : double) :
  in_int x -> in_int y ->
  NaiveMeasureCentroid.doApply indexToPosition image x y psf background =
  if is_zero (NaiveCentroidSpec.sum (NaiveCentroidSpec.neighbourhood image x y)
                                    background) then
    inl (RuntimeErrorException
           (NaiveMeasureCentroid.no_counts (int_sub x (Image.getX0 image))
                                           (int_sub y (Image.getY0 image))))
  else
    inr (NaiveCentroidSpec.centroid_by_rows indexToPosition image x y background).
Proof.
  intros Hx Hy.
  unfold NaiveMeasureCentroid.doApply.
  rewrite deqb_dzero, !int_untranslate by assumption.
  reflexivity.
Qed.

End NaiveCentroidFacts.


(** C2.  [doApply] throws exactly when [sum], the nine pixels of the 3x3
    neighbourhood minus nine times the background, is a zero, and what it
    throws then is the runtime error that reports no counts at the
    translated position; it throws nothing else. *)
Theorem doApply_throws_iff_no_counts {P : Type} `{PixelT P}
    (pixelCenter : Z -> double) (image : Image.t P) (x y : Z)
    (psf : option PSF.t) (background : double) :
  let sum := NaiveCentroidSpec.sum (NaiveCentroidSpec.neighbourhood image x y)
                                   background in
  let result := NaiveMeasureCentroid.doApply pixelCenter image x y psf background in
  ((exists e, result = inl e) <-> is_zero sum = true) /\
  (forall e, result = inl e ->
     e = RuntimeErrorException
           (NaiveMeasureCentroid.no_counts (int_sub x (Image.getX0 image))
                                           (int_sub y (Image.getY0 image)))).
Proof.
  intros sum result. subst result.
  unfold NaiveMeasureCentroid.doApply. rewrite deqb_dzero.
  change (is_zero (dsub _ _)) with (is_zero sum).
  destruct (is_zero sum); split.
  - split; [reflexivity | eauto].
  - intros e [= <-]. reflexivity.
  - split; [intros [e He]; discriminate He | discriminate].
  - intros e He. discriminate He.
Qed.

(** C8.  The PSF handed to [doApply] does not influence its result, and a
    centroid it returns has both error fields unset. *)
Theorem doApply_ignores_psf {P : Type} `{PixelT P}
    (pixelCenter : Z -> double) (image : Image.t P) (x y : Z)
    (psf1 psf2 : option PSF.t) (background : double) :
  NaiveMeasureCentroid.doApply pixelCenter image x y psf1 background
  = NaiveMeasureCentroid.doApply pixelCenter image x y psf2 background
  /\ match NaiveMeasureCentroid.doApply pixelCenter image x y psf1 background with
     | inl _ => True
     | inr c => Centroid.getXErr c = None /\ Centroid.getYErr c = None
     end.
Proof.
  split; [reflexivity|].
  unfold NaiveMeasureCentroid.doApply.
  destruct (deqb _ dzero); [exact I | split; reflexivity].
Qed.

(** On a 3x3 patch of [int] pixels that all hold the same nonzero value,
    with a zero background, [doApply] returns the nominal pixel centre:
    each coordinate is the centre of the pixel plus a zero offset. *)
Lemma doApply_flat_patch_int (pixelCenter : Z -> double) (image : Image.t Z)
    (x y v : Z) (psf : option PSF.t) (background : double) :
  in_int x -> in_int y -> in_int v -> v <> 0 ->
  is_zero background = true ->
  (forall dx dy, -1 <= dx <= 1 -> -1 <= dy <= 1 ->
     NaiveCentroidSpec.neighbourhood image x y dx dy = v) ->
  exists c,
    NaiveMeasureCentroid.doApply pixelCenter image x y psf background = inr c /\
    same_number (Centroid.getX c) (pixelCenter x) /\
    same_number (Centroid.getY c) (pixelCenter y).
Proof.
  intros Hx Hy Hv Hnz Hbg Hpatch.
  rewrite doApply_unfold by assumption. cbv zeta.
  set (im := NaiveCentroidSpec.neighbourhood image x y) in *.
  assert (Htotal : NaiveCentroidSpec.total im = wrap (9 * v)).
  { unfold NaiveCentroidSpec.total. simpl. rewrite !Hpatch by lia. int_arith. }
  assert (Hsum_x : NaiveCentroidSpec.sum_x_by_rows im = dzero).
  { unfold NaiveCentroidSpec.sum_x_by_rows.
    cbn [foldl padd pneg pixel_to_double PixelT_int]. rewrite !Hpatch by lia.
    replace (int_add _ _) with 0; [reflexivity|]. int_arith. }
  assert (Hsum_y : NaiveCentroidSpec.sum_y im = dzero).
  { unfold NaiveCentroidSpec.sum_y, NaiveCentroidSpec.row_sum, NaiveCentroidSpec.sum3.
    simpl. rewrite !Hpatch by lia.
    replace (int_sub _ _) with 0; [reflexivity|]. int_arith. }
  destruct (int_to_double_exact (wrap (9 * v)))
    as (m & e & Hd & _); [apply wrap_in_int | apply wrap_nine_nonzero; assumption |].
  assert (Hsum : NaiveCentroidSpec.sum im background
                 = S754_finite (wrap (9 * v) <? 0) m e).
  { unfold NaiveCentroidSpec.sum. rewrite Htotal.
    change (pixel_to_double (wrap (9 * v))) with (int_to_double (wrap (9 * v))).
    rewrite Hd. destruct background as [sb| | |]; try discriminate. reflexivity. }
  rewrite Hsum. simpl is_zero. cbv iota.
  unfold NaiveCentroidSpec.centroid_by_rows. cbv zeta. fold im.
  rewrite Hsum, Hsum_x, Hsum_y.
  eexists. split; [reflexivity|]. simpl.
  split; apply dadd_zero_r; reflexivity.
Qed.

(** The same on a 3x3 patch of [float] pixels that all hold one finite
    nonzero float whose threefold sum does not overflow. *)
Lemma doApply_flat_patch_float (pixelCenter : Z -> double) (image : Image.t float)
    (x y : Z) (v : float) (psf : option PSF.t) (background : double) :
  in_int x -> in_int y ->
  is_float v -> is_finite v = true -> is_zero v = false ->
  is_finite (fadd (fadd v v) v) = true ->
  is_zero background = true ->
  (forall dx dy, -1 <= dx <= 1 -> -1 <= dy <= 1 ->
     NaiveCentroidSpec.neighbourhood image x y dx dy = v) ->
  exists c,
    NaiveMeasureCentroid.doApply pixelCenter image x y psf background = inr c /\
    same_number (Centroid.getX c) (pixelCenter x) /\
    same_number (Centroid.getY c) (pixelCenter y).
Proof.
  intros Hx Hy Hfloat Hfinite Hnz Hrow Hbg Hpatch.
  rewrite doApply_unfold by assumption. cbv zeta.
  set (im := NaiveCentroidSpec.neighbourhood image x y) in *.
  destruct (float_nine_nonzero v Hfloat Hfinite Hnz) as [s Htotal].
  apply float_to_double_signed, signed_nonzero_class in Htotal.
  destruct Htotal as [Hz Hn].
  assert (Hsum : NaiveCentroidSpec.sum im background
                 = float_to_double
                     (fadd (fadd (fadd (fadd (fadd (fadd (fadd (fadd v v) v) v) v) v) v) v) v)).
  { unfold NaiveCentroidSpec.sum, NaiveCentroidSpec.total.
    cbn [foldl NaiveCentroidSpec.others fst snd padd pixel_to_double PixelT_float].
    rewrite !Hpatch by lia.
    apply dsub_zero_r; [apply dmul_nine_zero|..]; assumption. }
  assert (Hsum_x : NaiveCentroidSpec.sum_x_by_rows im = dzero).
  { unfold NaiveCentroidSpec.sum_x_by_rows.
    cbn [foldl padd pneg pixel_to_double PixelT_float]. rewrite !Hpatch by lia.
    rewrite float_sum_x_cancels by assumption. reflexivity. }
  assert (Hsum_y : NaiveCentroidSpec.sum_y im = dzero).
  { unfold NaiveCentroidSpec.sum_y, NaiveCentroidSpec.row_sum, NaiveCentroidSpec.sum3.
    cbn [padd psub pixel_to_double PixelT_float]. rewrite !Hpatch by lia.
    unfold fsub. rewrite SFsub_diag by exact Hrow. reflexivity. }
  rewrite Hsum, Hz.
  unfold NaiveCentroidSpec.centroid_by_rows. cbv zeta. fold im.
  rewrite Hsum, Hsum_x, Hsum_y.
  eexists. split; [reflexivity|].
  cbn [Centroid.getX Centroid.getY Centroid.make NaiveCentroidSpec.centroid_of].
  split; apply dadd_zero_r; apply ddiv_zero_l; auto.
Qed.

(** C7, as amended.  On a 3x3 patch whose nine pixels all hold the same
    nonzero value [v], with a zero background, [doApply] returns the
    nominal pixel centre, each coordinate being the centre of the pixel
    plus a zero offset: for [int] pixels whatever [v], for [float] pixels
    when [v] is finite and [v + v + v] does not overflow. *)
Theorem doApply_flat_patch (pixelCenter : Z -> double) (x y : Z)
    (psf : option PSF.t) (background : double) :
  in_int x -> in_int y -> is_zero background = true ->
  (forall (image : Image.t Z) (v : Z),
     in_int v -> v <> 0 ->
     (forall dx dy, -1 <= dx <= 1 -> -1 <= dy <= 1 ->
        NaiveCentroidSpec.neighbourhood image x y dx dy = v) ->
     exists c,
       NaiveMeasureCentroid.doApply pixelCenter image x y psf background = inr c /\
       same_number (Centroid.getX c) (pixelCenter x) /\
       same_number (Centroid.getY c) (pixelCenter y)) /\
  (forall (image : Image.t float) (v : float),
     is_float v -> is_finite v = true -> is_zero v = false ->
     is_finite (fadd (fadd v v) v) = true ->
     (forall dx dy, -1 <= dx <= 1 -> -1 <= dy <= 1 ->
        NaiveCentroidSpec.neighbourhood image x y dx dy = v) ->
     exists c,
       NaiveMeasureCentroid.doApply pixelCenter image x y psf background = inr c /\
       same_number (Centroid.getX c) (pixelCenter x) /\
       same_number (Centroid.getY c) (pixelCenter y)).
Proof.
  intros Hx Hy Hbg. split.
  - intros image v Hv Hnz Hpatch. apply (doApply_flat_patch_int _ _ _ _ v); assumption.
  - intros image v Hfloat Hfinite Hnz Hrow Hpatch.
    apply (doApply_flat_patch_float _ _ _ _ v); assumption.
Qed.

(** The claim C7 as first stated fails where the nine equal pixels are
    zero: [doApply] throws instead of returning the pixel centre. *)
Lemma doApply_flat_zero_patch_throws :
  (forall dx dy, NaiveCentroidSpec.neighbourhood (Samples.flat 0) 15 27 dx dy = 0) /\
  NaiveMeasureCentroid.doApply Samples.pixelCenter (Samples.flat 0) 15 27 None dzero
  = inl (RuntimeErrorException "Object at (5, 7) has no counts") /\
  (forall c, NaiveMeasureCentroid.doApply Samples.pixelCenter (Samples.flat 0)
               15 27 None dzero <> inr c).
Proof.
  split; [reflexivity|].
  assert (Hthrow : NaiveMeasureCentroid.doApply Samples.pixelCenter (Samples.flat 0)
                     15 27 None dzero
                   = inl (RuntimeErrorException "Object at (5, 7) has no counts"))
    by (vm_compute; reflexivity).
  split; [exact Hthrow|]. intros c Hc. rewrite Hthrow in Hc. discriminate Hc.
Qed.

Lemma in_int_15 : in_int 15.
Proof. unfold in_int. lia. Defined.

Lemma in_int_27 : in_int 27.
Proof. unfold in_int. lia. Defined.



(** Float sums depend on how they are grouped: on this image the right
    pixels minus the left pixels, taken row by row, are [2 ^ 24], and the
    right column sum minus the left column sum is [2 ^ 24 + 2]. *)
Example float_sum_x_depends_on_grouping :
  let im := NaiveCentroidSpec.neighbourhood Samples.uneven 5 5 in
  NaiveCentroidSpec.sum_x_by_rows im = S754_finite false 4503599627370496 (-28) /\
  NaiveCentroidSpec.sum_x im = S754_finite false 4503600164241408 (-28).
Proof. split; vm_compute; reflexivity. Qed.

Lemma doApply_throws_iff_no_counts_witness :
  exists e,
    NaiveMeasureCentroid.doApply Samples.pixelCenter (Samples.flat 0) 15 27 None dzero
    = inl e.
Proof.
  apply (proj1 (doApply_throws_iff_no_counts Samples.pixelCenter (Samples.flat 0)
                  15 27 None dzero)).
  vm_compute. reflexivity.
Defined.

Lemma doApply_flat_patch_witness :
  (exists c,
     NaiveMeasureCentroid.doApply Samples.pixelCenter (Samples.flat 7) 15 27 None dzero
     = inr c /\
     same_number (Centroid.getX c) (Samples.pixelCenter 15) /\
     same_number (Centroid.getY c) (Samples.pixelCenter 27)) /\
  (exists c,
     NaiveMeasureCentroid.doApply Samples.pixelCenter (Samples.flat_float Samples.f1_5)
       15 27 None dzero
     = inr c /\
     same_number (Centroid.getX c) (Samples.pixelCenter 15) /\
     same_number (Centroid.getY c) (Samples.pixelCenter 27)).
Proof.
  pose proof (doApply_flat_patch Samples.pixelCenter 15 27 None dzero
                in_int_15 in_int_27 eq_refl) as [Hint Hfloat].
  split.
  - apply (Hint (Samples.flat 7) 7).
    + unfold in_int. lia.
    + lia.
    + intros dx dy _ _. reflexivity.
  - apply (Hfloat (Samples.flat_float Samples.f1_5) Samples.f1_5).
    + reflexivity.
    + reflexivity.
    + reflexivity.
    + reflexivity.
    + intros dx dy _ _. reflexivity.
Defined.

(** Float pixels that are not finite, or whose threefold sum overflows:
    nine NaNs give a centroid of NaNs, and nine copies of the largest
    float give a NaN for the row coordinate. *)
Example doApply_flat_float_nan :
  NaiveMeasureCentroid.doApply Samples.pixelCenter (Samples.flat_float NAN)
    15 27 None dzero
  = inr (Centroid.make NAN NAN).
Proof. vm_compute. reflexivity. Qed.

Example doApply_flat_float_overflow :
  NaiveMeasureCentroid.doApply Samples.pixelCenter
    (Samples.flat_float (SFmax_float 24 128)) 15 27 None dzero
  = inr (Centroid.make (Samples.pixelCenter 15) NAN).
Proof. vm_compute. reflexivity. Qed.

(** The ramp image at (15, 27): the centroid is (15.5 + 6/234, 27.5 + 18/234). *)
Example doApply_ramp :
  NaiveMeasureCentroid.doApply Samples.pixelCenter Samples.ramp 15 27 None dzero
  = inr (Centroid.make (S754_finite false 8740158892220626 (-49))
                       (S754_finite false 7762213780828475 (-48))).
Proof. vm_compute. reflexivity. Qed.

(* ===================================================================== *)
(** * Convolution with the PSF *)
(* ===================================================================== *)

Section ConvolveFacts.
Variables ImageT Outcome : Type.
Variable afw_math_convolve : ImageT -> ImageT -> Kernel.t -> bool -> Z -> Outcome.

(** The three ways [convolve] can go, by the kernel the PSF owns. *)
Lemma convolve_cases (psf : PSF.t) (convolvedImage inImage : ImageT)
    (doNormalize : bool) (edgeBit : Z) :
  PSF.convolve afw_math_convolve psf convolvedImage inImage doNormalize edgeBit =
  match PSF.getKernel psf with
  | Some kernel =>
      if decide (0 < Kernel.getWidth kernel /\ 0 < Kernel.getHeight kernel)
      then inr (afw_math_convolve convolvedImage inImage kernel doNormalize edgeBit)
      else inl (RuntimeErrorException
                  "PSF does not have a realisation that can be used for convolution")
  | None =>
      inl (RuntimeErrorException
             "PSF does not have a realisation that can be used for convolution")
  end.
Proof.
  unfold PSF.convolve. destruct (PSF.getKernel psf) as [kernel|]; [|reflexivity].
  destruct (Z.leb_spec (Kernel.getWidth kernel) 0),
           (Z.leb_spec (Kernel.getHeight kernel) 0);
    simpl; case_decide; first [reflexivity | lia].
Qed.

End ConvolveFacts.

(** C3.  [convolve] throws exactly when the PSF has no kernel or its kernel
    has a width or a height that is not positive, and what it throws then
    is the runtime error about the missing realisation; with any other
    kernel it is the call of the generic convolution on the same images,
    kernel, [doNormalize] and [edgeBit]. *)
Theorem convolve_throws_iff_no_usable_kernel {ImageT Outcome : Type}
    (afw_math_convolve : ImageT -> ImageT -> Kernel.t -> bool -> Z -> Outcome)
    (psf : PSF.t) (convolvedImage inImage : ImageT)
    (doNormalize : bool) (edgeBit : Z) :
  let result :=
    PSF.convolve afw_math_convolve psf convolvedImage inImage doNormalize edgeBit in
  let precondition_error :=
    RuntimeErrorException
      "PSF does not have a realisation that can be used for convolution" in
  (result = inl precondition_error <->
     PSF.getKernel psf = None \/
     exists kernel, PSF.getKernel psf = Some kernel /\
                    (Kernel.getWidth kernel <= 0 \/ Kernel.getHeight kernel <= 0)) /\
  (forall e, result = inl e -> e = precondition_error) /\
  (forall kernel,
     PSF.getKernel psf = Some kernel ->
     0 < Kernel.getWidth kernel -> 0 < Kernel.getHeight kernel ->
     result = inr (afw_math_convolve convolvedImage inImage kernel doNormalize edgeBit)).
Proof.
  intros result precondition_error. subst result precondition_error.
  rewrite convolve_cases.
  destruct (PSF.getKernel psf) as [kernel|].
  - case_decide as Hsize.
    + split; [|split].
      * split; [discriminate|].
        intros [Hnone|(k & [= <-] & Hk)]; [discriminate Hnone | lia].
      * discriminate.
      * intros k [= <-] _ _. reflexivity.
    + split; [|split].
      * split; [|reflexivity].
        intros _. right. exists kernel. split; [reflexivity | lia].
      * intros e [= <-]. reflexivity.
      * intros k [= <-] Hw Hh. lia.
  - split; [|split].
    + split; [left; reflexivity | reflexivity].
    + intros e [= <-]. reflexivity.
    + discriminate.
Qed.

Lemma convolve_throws_iff_no_usable_kernel_witness :
  PSF.convolve Samples.record_convolve (Samples.psf_of (Some Samples.box3)) 1 2 true (-1)
  = inr (1, 2, Samples.box3, true, -1).
Proof.
  apply (proj2 (proj2 (convolve_throws_iff_no_usable_kernel Samples.record_convolve
                         (Samples.psf_of (Some Samples.box3)) 1 2 true (-1)))
           Samples.box3).
  - reflexivity.
  - simpl. lia.
  - simpl. lia.
Defined.

(** A kernel of width 0 and no kernel at all both end in the exception. *)
Example convolve_width_zero :
  PSF.convolve Samples.record_convolve
    (Samples.psf_of (Some (Kernel.mk 0 3 (fun _ _ => dzero)))) 1 2 true (-1)
  = inl (RuntimeErrorException
           "PSF does not have a realisation that can be used for convolution").
Proof. reflexivity. Qed.

Example convolve_no_kernel :
  PSF.convolve Samples.record_convolve (Samples.psf_of None) 1 2 true (-1)
  = inl (RuntimeErrorException
           "PSF does not have a realisation that can be used for convolution").
Proof. reflexivity. Qed.

(* ===================================================================== *)
(** * The PSF factories *)
(* ===================================================================== *)

(** C4.  A factory specialised for one signature answers the other
    overload of [create] with the [NotFoundException] of
    [PsfFactoryBase], whose text spells out the signature that is
    missing. *)
Theorem PsfFactory_other_signature_not_found :
  (forall (PsfT : Type) `(ParamConstructible PsfT) (ptr : Kernel.Ptr),
     exists what,
       PsfFactoryBase.create_kernel (PsfFactory.tuple PsfT) ptr
       = inl (NotFoundException what) /\
       mentions what (signature_text Sig_kernel) = true) /\
  (forall (PsfT : Type) `(KernelConstructible PsfT)
          (width height : Z) (p0 p1 p2 : double),
     exists what,
       PsfFactoryBase.create_params (PsfFactory.kernel PsfT) width height p0 p1 p2
       = inl (NotFoundException what) /\
       mentions what (signature_text Sig_tuple) = true).
Proof.
  split; intros; eexists; (split; [reflexivity | vm_compute; reflexivity]).
Qed.

(** The overload a factory does implement is the constructor of [PsfT]:
    the PSF it builds, or the exception it throws. *)
Lemma PsfFactory_own_signature (PsfT : Type) :
  (forall `(ParamConstructible PsfT) (width height : Z) (p0 p1 p2 : double),
     PsfFactoryBase.create_params (PsfFactory.tuple PsfT) width height p0 p1 p2
     = new_from_params (PsfT:=PsfT) width height p0 p1 p2) /\
  (forall `(KernelConstructible PsfT) (kernel : Kernel.Ptr),
     PsfFactoryBase.create_kernel (PsfFactory.kernel PsfT) kernel
     = new_from_kernel (PsfT:=PsfT) kernel).
Proof. split; reflexivity. Qed.

(* ===================================================================== *)
(** * Registration *)
(* ===================================================================== *)

(** ** The registry *)

Lemma register_known (name : string) (tag : Z) (r : AlgorithmRegistry.t) :
  AlgorithmRegistry.tags r !! name = Some tag ->
  AlgorithmRegistry.register name r = (tag, r).
Proof. unfold AlgorithmRegistry.register. intros ->. reflexivity. Qed.

(** After a registration the name maps to the tag that was returned. *)
Lemma register_recorded (name : string) (r : AlgorithmRegistry.t) :
  AlgorithmRegistry.tags (AlgorithmRegistry.register name r).2 !! name
  = Some (AlgorithmRegistry.register name r).1.
Proof.
  unfold AlgorithmRegistry.register.
  destruct (AlgorithmRegistry.tags r !! name) as [tag|] eqn:Hname; simpl.
  - exact Hname.
  - apply lookup_insert_eq.
Qed.

(** A registration leaves the entries that are already there alone. *)
Lemma register_preserves (name other : string) (tag : Z) (r : AlgorithmRegistry.t) :
  AlgorithmRegistry.tags r !! name = Some tag ->
  AlgorithmRegistry.tags (AlgorithmRegistry.register other r).2 !! name = Some tag.
Proof.
  intros Hname. unfold AlgorithmRegistry.register.
  destruct (AlgorithmRegistry.tags r !! other) as [tag'|] eqn:Hother; simpl.
  - exact Hname.
  - rewrite lookup_insert_ne; [exact Hname|]. intros ->. congruence.
Qed.

Lemma register_all_preserves (names : list string) (name : string) (tag : Z)
    (r : AlgorithmRegistry.t) :
  AlgorithmRegistry.tags r !! name = Some tag ->
  AlgorithmRegistry.tags (AlgorithmRegistry.register_all names r) !! name = Some tag.
Proof.
  revert r. induction names as [|other names IH]; intros r Hname; simpl.
  - exact Hname.
  - apply IH. apply register_preserves. exact Hname.
Qed.

(** C9.  Once a name is registered, registering it again, also after any
    other registrations, returns the tag of the first registration and
    leaves the registry as it is: the number of entries does not grow. *)
Theorem register_again_same_tag (name : string) (between : list string)
    (r : AlgorithmRegistry.t) :
  let first := AlgorithmRegistry.register name r in
  let later := AlgorithmRegistry.register_all between first.2 in
  let second := AlgorithmRegistry.register name later in
  second.1 = first.1 /\
  second.2 = later /\
  AlgorithmRegistry.count second.2 = AlgorithmRegistry.count later.
Proof.
  intros first later second. subst second.
  rewrite (register_known name first.1 later).
  - simpl. auto.
  - subst later. apply register_all_preserves. subst first. apply register_recorded.
Qed.

(** A first registration adds exactly one entry. *)
Lemma register_fresh_count (name : string) (r : AlgorithmRegistry.t) :
  AlgorithmRegistry.tags r !! name = None ->
  AlgorithmRegistry.count (AlgorithmRegistry.register name r).2
  = S (AlgorithmRegistry.count r).
Proof.
  intros Hname. unfold AlgorithmRegistry.register, AlgorithmRegistry.count.
  rewrite Hname. simpl. apply map_size_insert_None. exact Hname.
Qed.

(** ** [PSF::registerMe] *)

Section RegisterMeFacts.
Context {Inst : Type} `{Countable Inst}.
Variables PsfFactoryBase Registry : Type.
Variable new_PsfFactory : Inst -> PsfFactoryBase.
Variable declare : string -> PsfFactoryBase -> Registry -> throws Registry.

(** With [_registered] set, a call does nothing and returns true. *)
Lemma registerMe_registered (inst : Inst) (name : string)
    (s : PSF.statics Inst Registry) :
  inst ∈ PSF._registered s -> PSF.registerMe new_PsfFactory declare inst name s = inr (true, s).
Proof. intros Hin. unfold PSF.registerMe. rewrite decide_True by assumption. reflexivity. Qed.

(** A call that returns has set [_registered]. *)
Lemma registerMe_sets_registered (inst : Inst) (name : string)
    (s s1 : PSF.statics Inst Registry) (b : bool) :
  PSF.registerMe new_PsfFactory declare inst name s = inr (b, s1) -> b = true /\ inst ∈ PSF._registered s1.
Proof.
  unfold PSF.registerMe. case_decide as Hin.
  - intros [= <- <-]. auto.
  - destruct (declare name (new_PsfFactory inst) (PSF.registry s)) as [e|r];
      [discriminate|].
    intros [= <- <-]. split; [reflexivity|]. simpl. set_solver.
Qed.

(** Any number of further calls for the same template arguments, whatever
    the names, change nothing. *)
Lemma registerMe_further_calls (inst : Inst) (names : list string)
    (s : PSF.statics Inst Registry) :
  inst ∈ PSF._registered s ->
  Forall (fun name => PSF.registerMe new_PsfFactory declare inst name s = inr (true, s)) names.
Proof.
  intros Hin. apply Forall_forall. intros name _.
  apply registerMe_registered. exact Hin.
Qed.

End RegisterMeFacts.

(** With the registry of the specification behind [declare], a name that
    one instantiation has declared is not entered a second time, whichever
    instantiation is asked to register it again. *)
Lemma registerMe_same_name_again {Inst : Type} `{Countable Inst}
    {PsfFactoryBase : Type} (new_PsfFactory : Inst -> PsfFactoryBase)
    (inst1 inst2 : Inst) (name : string)
    (s0 s1 : PSF.statics Inst AlgorithmRegistry.t) (b1 : bool) :
  inst1 ∉ PSF._registered s0 ->
  PSF.registerMe new_PsfFactory AlgorithmRegistry.declare inst1 name s0 = inr (b1, s1) ->
  exists s2,
    PSF.registerMe new_PsfFactory AlgorithmRegistry.declare inst2 name s1
    = inr (true, s2) /\
    PSF.registry s2 = PSF.registry s1.
Proof.
  intros Hout Hfirst.
  unfold PSF.registerMe in Hfirst. rewrite decide_False in Hfirst by assumption.
  simpl in Hfirst. injection Hfirst as <- <-.
  unfold PSF.registerMe. case_decide as Hin2.
  - eexists. split; reflexivity.
  - simpl. eexists. split; [reflexivity|]. simpl.
    rewrite (register_known name (AlgorithmRegistry.register name (PSF.registry s0)).1);
      [reflexivity | apply register_recorded].
Qed.

(** C10.  For given template arguments, a call of [registerMe] that finds
    [_registered] false declares the name it is given; once a call has
    returned, every later call for the same template arguments returns
    true and changes neither the statics nor the registry, whatever name
    it is given: that name is not declared. *)
Theorem registerMe_only_first_registers {Inst : Type} `{Countable Inst}
    {PsfFactoryBase Registry : Type}
    (new_PsfFactory : Inst -> PsfFactoryBase)
    (declare : string -> PsfFactoryBase -> Registry -> throws Registry)
    (inst : Inst) (name : string) (s : PSF.statics Inst Registry) :
  (inst ∉ PSF._registered s ->
   PSF.registerMe new_PsfFactory declare inst name s =
   match declare name (new_PsfFactory inst) (PSF.registry s) with
   | inl e => inl e
   | inr r => inr (true, PSF.mkStatics ({[ inst ]} ∪ PSF._registered s) r)
   end) /\
  (forall (b : bool) (s1 : PSF.statics Inst Registry),
     PSF.registerMe new_PsfFactory declare inst name s = inr (b, s1) ->
     b = true /\
     forall other : string,
       PSF.registerMe new_PsfFactory declare inst other s1 = inr (true, s1)).
Proof.
  split.
  - intros Hout. unfold PSF.registerMe. rewrite decide_False by assumption.
    reflexivity.
  - intros b s1 Hfirst.
    destruct (registerMe_sets_registered _ _ _ _ _ _ _ _ _ Hfirst) as [-> Hin].
    split; [reflexivity|]. intros other.
    apply registerMe_registered. exact Hin.
Qed.

Lemma registerMe_only_first_registers_witness :
  let inst : Samples.instantiation := ("dgPSF", Sig_tuple) in
  let s0 := PSF.startup AlgorithmRegistry.empty in
  exists s1,
    PSF.registerMe Samples.new_PsfFactory AlgorithmRegistry.declare inst "DGPSF" s0
    = inr (true, s1) /\
    PSF.registerMe Samples.new_PsfFactory AlgorithmRegistry.declare inst "OTHER" s1
    = inr (true, s1) /\
    AlgorithmRegistry.lookup "OTHER" (PSF.registry s1) = inl (NotFoundException "OTHER").
Proof.
  intros inst s0.
  exists (PSF.mkStatics ({[ inst ]} ∪ ∅) (AlgorithmRegistry.register "DGPSF" AlgorithmRegistry.empty).2).
  assert (Hfirst :
    PSF.registerMe Samples.new_PsfFactory AlgorithmRegistry.declare inst "DGPSF" s0
    = inr (true, PSF.mkStatics ({[ inst ]} ∪ ∅)
                   (AlgorithmRegistry.register "DGPSF" AlgorithmRegistry.empty).2)).
  { apply (proj1 (registerMe_only_first_registers Samples.new_PsfFactory
                    AlgorithmRegistry.declare inst "DGPSF" s0)).
    simpl. apply not_elem_of_empty. }
  split; [exact Hfirst|]. split.
  - apply (proj2 (registerMe_only_first_registers Samples.new_PsfFactory
                    AlgorithmRegistry.declare inst "DGPSF" s0) _ _ Hfirst).
  - vm_compute. reflexivity.
Defined.

(* ===================================================================== *)
(** * Shape *)
(* ===================================================================== *)

(** The setters touch only their own member. *)
Lemma setCovar_getCovar (s : Shape.t) (covar : Shape.Matrix4) :
  Shape.getCovar (Shape.setCovar s covar) = covar.
Proof. reflexivity. Qed.

Lemma setCovar_moments (s : Shape.t) (covar : Shape.Matrix4) :
  Shape.getM0 (Shape.setCovar s covar) = Shape.getM0 s /\
  Shape.getMxx (Shape.setCovar s covar) = Shape.getMxx s /\
  Shape.getMxy (Shape.setCovar s covar) = Shape.getMxy s /\
  Shape.getMyy (Shape.setCovar s covar) = Shape.getMyy s.
Proof. repeat split. Qed.

(** C5.  After [setCovar covar], the four error accessors return the
    diagonal coefficients of [covar], widened from [float] to [double]
    without any change of value. *)
Theorem getErr_after_setCovar (s : Shape.t) (covar : Shape.Matrix4) :
  (forall i : fin 4, is_float (Shape.coeff covar i i)) ->
  let s' := Shape.setCovar s covar in
  (Shape.getM0Err s' = float_to_double (Shape.coeff covar 0%fin 0%fin) /\
   same_value (Shape.coeff covar 0%fin 0%fin) (Shape.getM0Err s')) /\
  (Shape.getMxxErr s' = float_to_double (Shape.coeff covar 1%fin 1%fin) /\
   same_value (Shape.coeff covar 1%fin 1%fin) (Shape.getMxxErr s')) /\
  (Shape.getMxyErr s' = float_to_double (Shape.coeff covar 2%fin 2%fin) /\
   same_value (Shape.coeff covar 2%fin 2%fin) (Shape.getMxyErr s')) /\
  (Shape.getMyyErr s' = float_to_double (Shape.coeff covar 3%fin 3%fin) /\
   same_value (Shape.coeff covar 3%fin 3%fin) (Shape.getMyyErr s')).
Proof.
  intros Hfloat s'.
  repeat split; apply float_to_double_exact; apply Hfloat.
Qed.

Lemma getErr_after_setCovar_witness :
  let covar := Samples.diagonal Samples.f1_5 Samples.f0_25 Samples.f0 Samples.f1_5 in
  let s' := Shape.setCovar (Shape.make covar NAN NAN NAN NAN Samples.centroid0) covar in
  same_value Samples.f1_5 (Shape.getM0Err s') /\
  same_value Samples.f0_25 (Shape.getMxxErr s') /\
  same_value Samples.f0 (Shape.getMxyErr s') /\
  same_value Samples.f1_5 (Shape.getMyyErr s').
Proof.
  intros covar s'.
  assert (Hfloat : forall i : fin 4, is_float (Shape.coeff covar i i)).
  { intros i. repeat (inv_fin i; [reflexivity | intros i]). inv_fin i. }
  pose proof (getErr_after_setCovar
                (Shape.make covar NAN NAN NAN NAN Samples.centroid0) covar Hfloat)
    as (H0 & H1 & H2 & H3).
  split; [apply H0 | split; [apply H1 | split; [apply H2 | apply H3]]].
Defined.

(** The accessors on a concrete matrix. *)
Example getErr_diagonal :
  let covar := Samples.diagonal Samples.f1_5 Samples.f0_25 Samples.f0 Samples.f1_5 in
  let s' := Shape.setCovar (Shape.make covar NAN NAN NAN NAN Samples.centroid0) covar in
  Shape.getM0Err s' = Samples.one_and_half /\
  Shape.getMxxErr s' = S754_finite false 4503599627370496 (-54).
Proof. split; vm_compute; reflexivity. Qed.

(** The claim C6 as first stated fails on a shape whose second moments are
    all zero: [mxx = myy] and [mxy = 0], yet both ellipticities are NaN and
    compare unequal to zero. *)
Lemma ellipticity_zero_moments_nan :
  let s := Shape.make (Samples.diagonal Samples.f0 Samples.f0 Samples.f0 Samples.f0)
             Samples.two dzero dzero dzero Samples.centroid0 in
  Shape.getMxx s = Shape.getMyy s /\
  Shape.getMxy s = dzero /\
  Shape.getE1 s = NAN /\ deqb (Shape.getE1 s) dzero = false /\
  Shape.getE2 s = NAN /\ deqb (Shape.getE2 s) dzero = false.
Proof. repeat split. Qed.

(** C6, as amended.  [getE1] is [(mxx - myy) / (mxx + myy)] and [getE2] is
    [2 mxy / (mxx + myy)].  When [mxx = myy] is finite and [mxx + myy] is
    not zero, [e1 == 0]; when [mxy] is zero and [mxx + myy] is neither zero
    nor a NaN, [e2 == 0]. *)
Theorem ellipticity_formulas (s : Shape.t) :
  let mxx := Shape.getMxx s in
  let mxy := Shape.getMxy s in
  let myy := Shape.getMyy s in
  Shape.getE1 s = ddiv (dsub mxx myy) (dadd mxx myy) /\
  Shape.getE2 s = ddiv (dmul (int_to_double 2) mxy) (dadd mxx myy) /\
  (mxx = myy -> is_finite mxx = true -> is_zero (dadd mxx myy) = false ->
   deqb (Shape.getE1 s) dzero = true) /\
  (is_zero mxy = true -> is_zero (dadd mxx myy) = false ->
   is_nan (dadd mxx myy) = false ->
   deqb (Shape.getE2 s) dzero = true).
Proof.
  intros mxx mxy myy. unfold Shape.getE1, Shape.getE2.
  fold (Shape.getMxx s) (Shape.getMxy s) (Shape.getMyy s). fold mxx mxy myy.
  split; [reflexivity|]. split; [reflexivity|]. split.
  - intros <- Hfinite Hsum. rewrite deqb_dzero.
    apply ddiv_zero_l; [apply dsub_diag; assumption | assumption |].
    apply dadd_finite_not_nan; assumption.
  - intros Hmxy Hsum Hnan. rewrite deqb_dzero.
    apply ddiv_zero_l; [|assumption|assumption].
    destruct mxy as [sxy| | |]; try discriminate. reflexivity.
Qed.

Lemma ellipticity_formulas_witness :
  let round := Shape.make (Samples.diagonal Samples.f0 Samples.f0 Samples.f0 Samples.f0)
                 Samples.two Samples.one_and_half dzero Samples.one_and_half
                 Samples.centroid0 in
  deqb (Shape.getE1 round) dzero = true /\ deqb (Shape.getE2 round) dzero = true.
Proof.
  intros round.
  pose proof (ellipticity_formulas round) as (_ & _ & He1 & He2).
  split.
  - apply He1; reflexivity.
  - apply He2; reflexivity.
Defined.

(** A shape with [mxx = 2], [mxy = 0.5], [myy = 1.5]:
    [e1 = 0.5 / 3.5] and [e2 = 1 / 3.5]. *)
Example ellipticity_sample :
  let s := Shape.make (Samples.diagonal Samples.f0 Samples.f0 Samples.f0 Samples.f0)
             Samples.two Samples.two Samples.half Samples.one_and_half
             Samples.centroid0 in
  Shape.getE1 s = S754_finite false 5146971002709138 (-55) /\
  Shape.getE2 s = S754_finite false 5146971002709138 (-54).
Proof. split; vm_compute; reflexivity. Qed.

(* ===================================================================== *)
(** * Further properties of [PSF::registerMe] *)
(* ===================================================================== *)

Section RegisterMeMore.
#[local] Set Warnings "-clear-no-such-hyp".
Context {Inst : Type} `{Countable Inst}.
Variables PsfFactoryBase Registry : Type.
Variable new_PsfFactory : Inst -> PsfFactoryBase.
Variable declare : string -> PsfFactoryBase -> Registry -> throws Registry.

(** X1.  [registerMe] throws exactly when [_registered] is still false for
    its template arguments and [declare] throws, and it throws what
    [declare] throws. *)
Theorem registerMe_throws_iff_declare_throws (inst : Inst) (name : string)
    (s : PSF.statics Inst Registry) (e : Exception) :
  PSF.registerMe new_PsfFactory declare inst name s = inl e <->
  (inst ∉ PSF._registered s) /\
  declare name (new_PsfFactory inst) (PSF.registry s) = inl e.
Proof.
  unfold PSF.registerMe. case_decide as Hin.
  - split; [discriminate | intros [Hout _]; contradiction].
  - destruct (declare name (new_PsfFactory inst) (PSF.registry s)) as [e'|r].
    + split; [intros [= <-]; auto | intros [_ [= <-]]; reflexivity].
    + split; [discriminate | intros [_ Hd]; discriminate Hd].
Qed.

(** X2.  A call that returns has set [_registered] for its own template
    arguments and for no others, and has reset none. *)
Theorem registerMe_sets_own_flag_only (inst : Inst) (name : string)
    (s s1 : PSF.statics Inst Registry) (b : bool) :
  PSF.registerMe new_PsfFactory declare inst name s = inr (b, s1) ->
  PSF._registered s1 = {[ inst ]} ∪ PSF._registered s.
Proof.
  unfold PSF.registerMe. case_decide as Hin.
  - intros [= <- <-]. set_solver.
  - destruct (declare name (new_PsfFactory inst) (PSF.registry s)) as [e'|r];
      [discriminate|].
    intros [= <- <-]. reflexivity.
Qed.

(** X3.  A run of calls amounts to declaring, in order, the name of the
    first call for each set of template arguments not registered before
    the run: it throws what those calls of [declare] throw, and otherwise
    leaves the registry they leave, with [_registered] set for all the
    template arguments of the run. *)
Theorem registerMe_run_declares_first_calls (calls : list (Inst * string))
    (s : PSF.statics Inst Registry) :
  match RegisterMeRun.run new_PsfFactory declare calls s,
        RegisterMeRun.declare_all new_PsfFactory declare
          (RegisterMeRun.first_calls (PSF._registered s) calls) (PSF.registry s)
  with
  | inr s', inr r =>
      PSF.registry s' = r /\
      PSF._registered s' = list_to_set (calls.*1) ∪ PSF._registered s
  | inl e, inl e' => e = e'
  | _, _ => False
  end.
Proof.
  revert s. induction calls as [|[inst name] calls IH]; intros s; simpl.
  - split; [reflexivity | set_solver].
  - unfold PSF.registerMe. case_decide as Hin.
    + specialize (IH s).
      destruct (RegisterMeRun.run _ _ calls s) as [e|s'],
               (RegisterMeRun.declare_all _ _ _ (PSF.registry s)) as [e'|r];
        try assumption.
      destruct IH as [Hr Hs]. split; [assumption|]. rewrite Hs. set_solver.
    + simpl.
      destruct (declare name (new_PsfFactory inst) (PSF.registry s)) as [e|r];
        [reflexivity|].
      specialize (IH (PSF.mkStatics ({[ inst ]} ∪ PSF._registered s) r)).
      simpl in IH.
      destruct (RegisterMeRun.run _ _ calls _) as [e|s'],
               (RegisterMeRun.declare_all _ _ _ r) as [e'|r'];
        try assumption.
      destruct IH as [Hr Hs]. split; [assumption|]. rewrite Hs. set_solver.
Qed.

End RegisterMeMore.

Lemma registerMe_throws_iff_declare_throws_witness :
  PSF.registerMe Samples.new_PsfFactory Samples.declare_once
    ("dgPSF", Sig_tuple) "DGPSF" (PSF.startup ["DGPSF"])
  = inl (RuntimeErrorException "DGPSF").
Proof.
  apply (proj2 (registerMe_throws_iff_declare_throws _ _ Samples.new_PsfFactory
                  Samples.declare_once ("dgPSF", Sig_tuple) "DGPSF"
                  (PSF.startup ["DGPSF"]) (RuntimeErrorException "DGPSF"))).
  split.
  - simpl. apply not_elem_of_empty.
  - vm_compute. reflexivity.
Defined.

Lemma registerMe_sets_own_flag_only_witness :
  PSF._registered
    (PSF.mkStatics ({[ ("dgPSF", Sig_tuple) ]} ∪ ∅ : gset Samples.instantiation)
                   ["DGPSF"])
  = {[ ("dgPSF", Sig_tuple) ]} ∪ PSF._registered (PSF.startup ([] : list string)).
Proof.
  apply (registerMe_sets_own_flag_only _ _ Samples.new_PsfFactory Samples.declare_once
           ("dgPSF", Sig_tuple) "DGPSF" (PSF.startup []) _ true).
  unfold PSF.registerMe. rewrite decide_False by apply not_elem_of_empty.
  reflexivity.
Defined.

(** Two classes registered twice each under changing names: only the first
    name of each is declared. *)
Example registerMe_run_sample :
  RegisterMeRun.first_calls (∅ : gset Samples.instantiation)
    [ (("dgPSF", Sig_tuple), "DGPSF"); (("dgPSF", Sig_tuple), "OTHER");
      (("pcaPSF", Sig_kernel), "PCA"); (("pcaPSF", Sig_kernel), "DGPSF") ]
  = [ (("dgPSF", Sig_tuple), "DGPSF"); (("pcaPSF", Sig_kernel), "PCA") ].
Proof. vm_compute. reflexivity. Qed.

(* ===================================================================== *)
(** * Further properties of [PSF] *)
(* ===================================================================== *)

Lemma PsfRun_run_snoc (ops : list PsfRun.setter) (op : PsfRun.setter) (psf : PSF.t) :
  PsfRun.run (ops ++ [op]) psf = PsfRun.call (PsfRun.run ops psf) op.
Proof. unfold PsfRun.run. rewrite foldl_app. reflexivity. Qed.

(** X4.  The size of the image realisations is kept apart from the kernel:
    after any run of [setWidth] and [setHeight] calls, [getDimensions]
    returns the [int]s of the last call of each, or what it returned
    before when there was none, the kernel is the one the PSF had, and
    [convolve] has the outcome it had. *)
Theorem PSF_kernel_after_setters {ImageT Outcome : Type}
    (afw_math_convolve : ImageT -> ImageT -> Kernel.t -> bool -> Z -> Outcome)
    (ops : list PsfRun.setter) (psf : PSF.t) :
  let psf' := PsfRun.run ops psf in
  PSF.getDimensions psf'
  = (PsfRun.last_width ops (PSF.getWidth psf),
     PsfRun.last_height ops (PSF.getHeight psf)) /\
  PSF.getKernel psf' = PSF.getKernel psf /\
  (forall convolvedImage inImage doNormalize edgeBit,
     PSF.convolve afw_math_convolve psf' convolvedImage inImage doNormalize edgeBit
     = PSF.convolve afw_math_convolve psf convolvedImage inImage doNormalize edgeBit).
Proof.
  induction ops as [|op ops IH] using rev_ind; [repeat split|].
  cbv zeta in *. rewrite PsfRun_run_snoc.
  unfold PsfRun.last_width, PsfRun.last_height. rewrite !foldl_app.
  fold (PsfRun.last_width ops (PSF.getWidth psf)).
  fold (PsfRun.last_height ops (PSF.getHeight psf)).
  destruct IH as (Hdim & Hker & Hconv).
  injection Hdim as Hw Hh.
  assert (Hker' : PSF.getKernel (PsfRun.call (PsfRun.run ops psf) op)
                  = PSF.getKernel psf)
    by (destruct op; exact Hker).
  split; [|split].
  - destruct op; unfold PSF.getDimensions; simpl; rewrite ?Hw, ?Hh; reflexivity.
  - exact Hker'.
  - intros. unfold PSF.convolve. rewrite Hker'. reflexivity.
Qed.

(** A width wider than an [int], then two more calls. *)
Example PsfRun_sample :
  PSF.getDimensions
    (PsfRun.run [ PsfRun.SetWidth 4294967297; PsfRun.SetHeight 15; PsfRun.SetHeight 21 ]
                (Samples.psf_of (Some Samples.box3)))
  = (1, 21).
Proof. reflexivity. Qed.

(* ===================================================================== *)
(** * Further properties of [Shape] *)
(* ===================================================================== *)

(** One more call at the end of a run. *)
Lemma ShapeRun_run_snoc (ops : list ShapeRun.setter) (op : ShapeRun.setter)
    (s : Shape.t) :
  ShapeRun.run (ops ++ [op]) s = ShapeRun.call (ShapeRun.run ops s) op.
Proof. unfold ShapeRun.run. rewrite foldl_app. reflexivity. Qed.

Lemma ShapeRun_last_set_snoc {A : Type} (pick : ShapeRun.setter -> option A)
    (ops : list ShapeRun.setter) (op : ShapeRun.setter) (start : A) :
  ShapeRun.last_set pick (ops ++ [op]) start
  = default (ShapeRun.last_set pick ops start) (pick op).
Proof. unfold ShapeRun.last_set. rewrite foldl_app. reflexivity. Qed.

(** The matrix after a run of setter calls. *)
Lemma ShapeRun_covar (ops : list ShapeRun.setter) (s : Shape.t) :
  Shape._covar (ShapeRun.run ops s)
  = ShapeRun.last_set ShapeRun.covar_of ops (Shape._covar s).
Proof.
  induction ops as [|op ops IH] using rev_ind; [reflexivity|].
  rewrite ShapeRun_run_snoc, ShapeRun_last_set_snoc.
  destruct op; simpl; try exact IH. reflexivity.
Qed.

(** X6.  After any run of setter calls, each getter returns the argument of
    the last call of its own setter, the flags as the [int] [setFlags]
    receives, or what it returned before the run when there was none; the
    centroid is what it was. *)
Theorem Shape_getters_after_setters (ops : list ShapeRun.setter) (s : Shape.t) :
  let s' := ShapeRun.run ops s in
  Shape.getM0 s' = ShapeRun.last_set ShapeRun.m0_of ops (Shape.getM0 s) /\
  Shape.getMxx s' = ShapeRun.last_set ShapeRun.mxx_of ops (Shape.getMxx s) /\
  Shape.getMxy s' = ShapeRun.last_set ShapeRun.mxy_of ops (Shape.getMxy s) /\
  Shape.getMyy s' = ShapeRun.last_set ShapeRun.myy_of ops (Shape.getMyy s) /\
  Shape.getMxy4 s' = ShapeRun.last_set ShapeRun.mxy4_of ops (Shape.getMxy4 s) /\
  Shape.getFlags s' = ShapeRun.last_set ShapeRun.flags_of ops (Shape.getFlags s) /\
  Shape.getCovar s' = ShapeRun.last_set ShapeRun.covar_of ops (Shape.getCovar s) /\
  Shape.getCentroid s' = Shape.getCentroid s.
Proof.
  induction ops as [|op ops IH] using rev_ind; [repeat split|].
  cbv zeta in *. rewrite ShapeRun_run_snoc, !ShapeRun_last_set_snoc.
  destruct IH as (H0 & Hxx & Hxy & Hyy & H4 & Hf & Hc & Hcen).
  destruct op; simpl; repeat split; assumption.
Qed.

(** X7.  The four error accessors read the covariance matrix and nothing
    else: after any run of setter calls they return the diagonal of the
    matrix of the last [setCovar], or of the matrix the shape had when
    there was none, whatever moments and flags were set. *)
Theorem Shape_errors_after_setters (ops : list ShapeRun.setter) (s : Shape.t) :
  let s' := ShapeRun.run ops s in
  let covar := ShapeRun.last_set ShapeRun.covar_of ops (Shape.getCovar s) in
  Shape.getM0Err s' = float_to_double (Shape.coeff covar 0%fin 0%fin) /\
  Shape.getMxxErr s' = float_to_double (Shape.coeff covar 1%fin 1%fin) /\
  Shape.getMxyErr s' = float_to_double (Shape.coeff covar 2%fin 2%fin) /\
  Shape.getMyyErr s' = float_to_double (Shape.coeff covar 3%fin 3%fin).
Proof.
  intros s' covar.
  pose proof (ShapeRun_covar ops s) as Hc.
  unfold Shape.getM0Err, Shape.getMxxErr, Shape.getMxyErr, Shape.getMyyErr.
  subst s'. rewrite Hc. repeat split.
Qed.

(** A shape as constructed: the moments and the centroid are the
    arguments, the fourth moment is a NaN and so compares unequal to every
    number, itself included, and no flag is set. *)
Lemma Shape_as_constructed (covar0 : Shape.Matrix4) (m0 mxx mxy myy : double)
    (centroid : Centroid.t) :
  let s := Shape.make covar0 m0 mxx mxy myy centroid in
  (Shape.getM0 s, Shape.getMxx s, Shape.getMxy s, Shape.getMyy s) = (m0, mxx, mxy, myy) /\
  Shape.getCentroid s = centroid /\
  Shape.getFlags s = 0 /\
  (forall d, deqb (Shape.getMxy4 s) d = false) /\
  deqb (Shape.getMxy4 s) (Shape.getMxy4 s) = false.
Proof. repeat split. Qed.

(** Three moments set, one of them twice, around a [setCovar]. *)
Example Shape_run_sample :
  let covar := Samples.diagonal Samples.f1_5 Samples.f0_25 Samples.f0 Samples.f1_5 in
  let s' := ShapeRun.run
              [ ShapeRun.SetMxx Samples.half; ShapeRun.SetCovar covar;
                ShapeRun.SetFlags 3; ShapeRun.SetMxx Samples.two ]
              (Shape.make covar NAN NAN NAN NAN Samples.centroid0) in
  Shape.getMxx s' = Samples.two /\ Shape.getFlags s' = 3 /\
  Shape.getM0 s' = NAN /\ Shape.getMyyErr s' = Samples.one_and_half.
Proof. repeat split. Qed.

(* ===================================================================== *)
(** * Further properties of the naive centroid *)
(* ===================================================================== *)

(** NaN as the second operand. *)
Lemma dsub_nan_r (x : double) : dsub x NAN = NAN.
Proof. destruct x; reflexivity. Qed.

Lemma ddiv_nan_r (x : double) : ddiv x NAN = NAN.
Proof. destruct x; reflexivity. Qed.

Lemma dadd_nan_r (x : double) : dadd x NAN = NAN.
Proof. destruct x; reflexivity. Qed.

(** An [int] converted to [double] is finite. *)
Lemma int_to_double_finite (z : Z) : in_int z -> is_finite (int_to_double z) = true.
Proof.
  intros Hz. destruct (Z.eq_dec z 0) as [->|Hnz]; [reflexivity|].
  destruct (int_to_double_exact z Hz Hnz) as (m & e & -> & _). reflexivity.
Qed.

(** Nine times a number that is not a NaN is not a NaN. *)
Lemma dmul_nine_not_nan (d : double) :
  is_nan d = false -> is_nan (dmul (int_to_double 9) d) = false.
Proof.
  destruct d as [s|s| |s m e]; try discriminate; intros _; try reflexivity.
  change (int_to_double 9) with (S754_finite false 5066549580791808 (-49)).
  unfold dmul, SFmul. apply binary_round_aux_not_nan. lia.
Qed.

(** A finite number minus a number that is not a NaN is not a NaN. *)
Lemma dsub_finite_not_nan (x y : double) :
  is_finite x = true -> is_nan y = false -> is_nan (dsub x y) = false.
Proof.
  destruct x as [sx|sx| |sx mx ex]; try discriminate;
    destruct y as [sy|sy| |sy my ey]; try discriminate; intros _ _;
    try reflexivity.
  - destruct sx, sy; reflexivity.
  - unfold dsub, SFsub. apply binary_normalize_not_nan.
Qed.

Section NaiveCentroidMore.
Context {P : Type} `{PixelT P}.
Variable indexToPosition : Z -> double.

(** X8.  [doApply] reads the origin of the image and the nine pixels
    around the translated position, and nothing else of the image: on two
    images with the same origin that agree on those nine pixels it gives
    the same result, exception included. *)
Theorem doApply_reads_only_neighbourhood (image1 image2 : Image.t P) (x y : Z)
    (psf : option PSF.t) (background : double) :
  Image.getX0 image1 = Image.getX0 image2 ->
  Image.getY0 image1 = Image.getY0 image2 ->
  (forall dx dy, -1 <= dx <= 1 -> -1 <= dy <= 1 ->
     NaiveCentroidSpec.neighbourhood image1 x y dx dy
     = NaiveCentroidSpec.neighbourhood image2 x y dx dy) ->
  NaiveMeasureCentroid.doApply indexToPosition image1 x y psf background
  = NaiveMeasureCentroid.doApply indexToPosition image2 x y psf background.
Proof.
  intros HX HY Hsame.
  unfold NaiveMeasureCentroid.doApply.
  unfold NaiveCentroidSpec.neighbourhood in Hsame.
  rewrite <- HX, <- HY in *.
  rewrite !Hsame by lia. reflexivity.
Qed.

(** X9.  With a NaN for the background [doApply] does not throw, whatever
    the pixels: [sum] is a NaN, which is not [== 0.0], and both
    coordinates of the centroid returned are NaNs. *)
Theorem doApply_nan_background (image : Image.t P) (x y : Z)
    (psf : option PSF.t) (background : double) :
  is_nan background = true ->
  NaiveMeasureCentroid.doApply indexToPosition image x y psf background
  = inr (Centroid.make NAN NAN).
Proof.
  destruct background; try discriminate. intros _.
  unfold NaiveMeasureCentroid.doApply.
  change (dmul (int_to_double 9) S754_nan) with NAN.
  rewrite dsub_nan_r. simpl deqb. cbv iota.
  rewrite !ddiv_nan_r, !dadd_nan_r. reflexivity.
Qed.

(** X10.  Moving the image in its parent's frame and the position with it
    changes nothing but the pixel whose centre the offsets are added to:
    the guard and the three sums are those of the image where it was. *)
Theorem doApply_moved_image (image : Image.t P) (a b x y : Z)
    (psf : option PSF.t) (background : double) :
  let im := NaiveCentroidSpec.neighbourhood image x y in
  NaiveMeasureCentroid.doApply indexToPosition (moved image a b)
    (int_add x a) (int_add y b) psf background =
  if is_zero (NaiveCentroidSpec.sum im background) then
    inl (RuntimeErrorException
           (NaiveMeasureCentroid.no_counts (int_sub x (Image.getX0 image))
                                           (int_sub y (Image.getY0 image))))
  else
    inr (NaiveCentroidSpec.centroid_of indexToPosition (int_add x a) (int_add y b)
           (NaiveCentroidSpec.sum_x_by_rows im) (NaiveCentroidSpec.sum_y im)
           (NaiveCentroidSpec.sum im background)).
Proof.
  intros im.
  rewrite doApply_unfold by apply wrap_in_int.
  assert (Hnb : NaiveCentroidSpec.neighbourhood (moved image a b)
                  (int_add x a) (int_add y b) = im).
  { unfold im, NaiveCentroidSpec.neighbourhood, moved. simpl.
    replace (int_sub (int_add x a) (int_add (Image.getX0 image) a))
      with (int_sub x (Image.getX0 image)) by int_arith.
    replace (int_sub (int_add y b) (int_add (Image.getY0 image) b))
      with (int_sub y (Image.getY0 image)) by int_arith.
    reflexivity. }
  unfold NaiveCentroidSpec.centroid_by_rows. rewrite Hnb. cbv zeta.
  unfold moved. simpl Image.getX0. simpl Image.getY0.
  replace (int_sub (int_add x a) (int_add (Image.getX0 image) a))
    with (int_sub x (Image.getX0 image)) by int_arith.
  replace (int_sub (int_add y b) (int_add (Image.getY0 image) b))
    with (int_sub y (Image.getY0 image)) by int_arith.
  reflexivity.
Qed.

End NaiveCentroidMore.

(** For [int] pixels [sum] is a NaN only if the background is. *)
Lemma int_sum_not_nan (im : Image.xy_locator Z) (background : double) :
  is_nan background = false ->
  is_nan (NaiveCentroidSpec.sum im background) = false.
Proof.
  intros Hbg. unfold NaiveCentroidSpec.sum.
  apply dsub_finite_not_nan; [|apply dmul_nine_not_nan; assumption].
  assert (Hin : in_int (NaiveCentroidSpec.total im))
    by (unfold NaiveCentroidSpec.total; simpl; apply wrap_in_int).
  apply int_to_double_finite. exact Hin.
Qed.

(** X11.  On [int] pixels, with a background that is not a NaN and a [sum]
    that is not zero: when each row has the same value left and right of
    the centre, the column coordinate returned is the centre of the pixel;
    when each column has the same value above and below the centre, the
    row coordinate is. *)
Theorem doApply_symmetric_patch (pixelCenter : Z -> double) (image : Image.t Z)
    (x y : Z) (psf : option PSF.t) (background : double) :
  in_int x -> in_int y ->
  is_nan background = false ->
  let im := NaiveCentroidSpec.neighbourhood image x y in
  is_zero (NaiveCentroidSpec.sum im background) = false ->
  exists c,
    NaiveMeasureCentroid.doApply pixelCenter image x y psf background = inr c /\
    ((forall dy, -1 <= dy <= 1 -> im (-1) dy = im 1 dy) ->
     same_number (Centroid.getX c) (pixelCenter x)) /\
    ((forall dx, -1 <= dx <= 1 -> im dx (-1) = im dx 1) ->
     same_number (Centroid.getY c) (pixelCenter y)).
Proof.
  intros Hx Hy Hbg im Hsum.
  pose proof (int_sum_not_nan im background Hbg) as Hnan.
  rewrite doApply_unfold by assumption. fold im. rewrite Hsum.
  eexists. split; [reflexivity|].
  unfold NaiveCentroidSpec.centroid_by_rows. cbv zeta. fold im.
  cbn [Centroid.getX Centroid.getY Centroid.make NaiveCentroidSpec.centroid_of].
  split.
  - intros Hlr. apply dadd_zero_r, ddiv_zero_l; [|assumption|assumption].
    unfold NaiveCentroidSpec.sum_x_by_rows.
    cbn [foldl padd pneg pixel_to_double PixelT_int].
    rewrite !Hlr by lia.
    replace (int_add _ _) with 0; [reflexivity|]. int_arith.
  - intros Htb. apply dadd_zero_r, ddiv_zero_l; [|assumption|assumption].
    unfold NaiveCentroidSpec.sum_y, NaiveCentroidSpec.row_sum, NaiveCentroidSpec.sum3.
    cbn [padd psub pixel_to_double PixelT_int].
    rewrite !Htb by lia.
    replace (int_sub _ _) with 0; [reflexivity|]. int_arith.
Qed.


Lemma doApply_reads_only_neighbourhood_witness :
  NaiveMeasureCentroid.doApply Samples.pixelCenter (Samples.flat 7) 15 27 None dzero
  = NaiveMeasureCentroid.doApply Samples.pixelCenter Samples.spot 15 27 None dzero.
Proof.
  apply (doApply_reads_only_neighbourhood Samples.pixelCenter (Samples.flat 7)
           Samples.spot 15 27 None dzero eq_refl eq_refl).
  intros dx dy Hdx Hdy.
  assert (Hx : dx = -1 \/ dx = 0 \/ dx = 1) by lia.
  assert (Hy : dy = -1 \/ dy = 0 \/ dy = 1) by lia.
  destruct Hx as [->|[->| ->]], Hy as [->|[->| ->]]; reflexivity.
Defined.

Lemma doApply_nan_background_witness :
  NaiveMeasureCentroid.doApply Samples.pixelCenter (Samples.flat 0) 15 27 None NAN
  = inr (Centroid.make NAN NAN).
Proof.
  apply (doApply_nan_background Samples.pixelCenter (Samples.flat 0) 15 27 None NAN).
  reflexivity.
Defined.

Lemma doApply_symmetric_patch_witness :
  exists c,
    NaiveMeasureCentroid.doApply Samples.pixelCenter Samples.spot 15 27 None Samples.half
    = inr c /\
    same_number (Centroid.getX c) (Samples.pixelCenter 15) /\
    same_number (Centroid.getY c) (Samples.pixelCenter 27).
Proof.
  assert (Hsum : is_zero (NaiveCentroidSpec.sum
                            (NaiveCentroidSpec.neighbourhood Samples.spot 15 27)
                            Samples.half) = false) by (vm_compute; reflexivity).
  destruct (doApply_symmetric_patch Samples.pixelCenter Samples.spot 15 27 None
              Samples.half in_int_15 in_int_27 eq_refl Hsum) as (c & Hc & Hlr & Htb).
  exists c. split; [exact Hc|]. split.
  - apply Hlr. intros dy Hdy.
    assert (Hy : dy = -1 \/ dy = 0 \/ dy = 1) by lia.
    destruct Hy as [->|[->| ->]]; reflexivity.
  - apply Htb. intros dx Hdx.
    assert (Hx : dx = -1 \/ dx = 0 \/ dx = 1) by lia.
    destruct Hx as [->|[->| ->]]; reflexivity.
Defined.


(** The ramp raised by 5: the sum goes from 234 to 279, the numerators stay
    6 and 18. *)
Example doApply_raised_ramp :
  NaiveCentroidSpec.sum (NaiveCentroidSpec.neighbourhood (raised Samples.ramp 5) 15 27)
    dzero = int_to_double 279 /\
  NaiveCentroidSpec.sum_x_by_rows (NaiveCentroidSpec.neighbourhood Samples.ramp 15 27)
  = int_to_double 6 /\
  NaiveCentroidSpec.sum_y (NaiveCentroidSpec.neighbourhood Samples.ramp 15 27)
  = int_to_double 18.
Proof. repeat split; vm_compute; reflexivity. Qed.
